(** * yt_dlp_downloader.py: a shallow embedding and its properties

    The program is a command-line front end of the external tool yt-dlp:
    it parses its options, probes the tool, validates the URL and then
    shows metadata, lists formats or downloads.  The embedding follows
    the source function by function.  What the program cannot see into
    (the regular-expression classes of the Unicode database, [json.loads],
    [os.makedirs], the subprocesses) is a field of the record [Platform];
    all that the program itself computes is defined here and runs. *)

From Stdlib Require Import List ZArith NArith Bool Lia String Ascii.
From Stdlib Require Import DecimalString.
Import ListNotations.

Set Warnings "-register-all".

Local Open Scope N_scope.

(** ** Text *)

(** A Python [str] is a sequence of code points. *)
Definition pystr := list N.

(** The code points of an ASCII literal. *)
Definition u (s : string) : pystr := map N_of_ascii (list_ascii_of_string s).

Definition chr (a : ascii) : N := N_of_ascii a.

Fixpoint pystr_eqb (a b : pystr) : bool :=
  match a, b with
  | [], [] => true
  | x :: a', y :: b' => (x =? y) && pystr_eqb a' b'
  | _, _ => false
  end.

(** [sep.join(parts)] *)
Fixpoint join (sep : pystr) (parts : list pystr) : pystr :=
  match parts with
  | [] => []
  | [p] => p
  | p :: rest => p ++ sep ++ join sep rest
  end.

(** ** Regular expressions: the fragment of [re] the patterns use *)

Module Re.

(** An item of a bracketed class: [\w] or a literal character. *)
Inductive citem :=
| CWord
| CLit (c : N).

Inductive regex :=
| RNone                      (* matches nothing; only derivatives build it *)
| REps
| RChr (c : N)
| RSet (items : list citem)
| RSeq (a b : regex)
| RAlt (a b : regex)
| RStar (a : regex).

(** [(?:r)?] *)
Definition ROpt (r : regex) : regex := RAlt r REps.

(** [r+] *)
Definition RPlus (r : regex) : regex := RSeq r (RStar r).

(** a run of literal characters *)
Fixpoint RStr (w : pystr) : regex :=
  match w with
  | [] => REps
  | c :: w' => RSeq (RChr c) (RStr w')
  end.

Definition ascii_alnum (c : N) : bool :=
  ((48 <=? c) && (c <=? 57)) || ((65 <=? c) && (c <=? 90))
  || ((97 <=? c) && (c <=? 122)).

Section Matcher.

(** [str.isalnum] on the code points above ASCII, as the Unicode database
    of the interpreter has it. *)
Variable isalnum_high : N -> bool.

(** [\w] of a [str] pattern: alphanumeric or the underscore. *)
Definition is_word (c : N) : bool :=
  if c <? 128 then ascii_alnum c || (c =? 95) else isalnum_high c.

Definition item_has (c : N) (i : citem) : bool :=
  match i with
  | CWord => is_word c
  | CLit d => c =? d
  end.

Definition in_set (items : list citem) (c : N) : bool :=
  existsb (item_has c) items.

Fixpoint nullable (r : regex) : bool :=
  match r with
  | RNone => false
  | REps => true
  | RChr _ => false
  | RSet _ => false
  | RSeq a b => nullable a && nullable b
  | RAlt a b => nullable a || nullable b
  | RStar _ => true
  end.

Fixpoint deriv (c : N) (r : regex) : regex :=
  match r with
  | RNone => RNone
  | REps => RNone
  | RChr d => if c =? d then REps else RNone
  | RSet items => if in_set items c then REps else RNone
  | RSeq a b =>
      if nullable a then RAlt (RSeq (deriv c a) b) (deriv c b)
      else RSeq (deriv c a) b
  | RAlt a b => RAlt (deriv c a) (deriv c b)
  | RStar a => RSeq (deriv c a) (RStar a)
  end.

(** [re.match(r, s)] seen as a truth value: some prefix of [s], starting
    at position 0, is matched by [r]. *)
Fixpoint re_match (r : regex) (s : pystr) : bool :=
  nullable r ||
  match s with
  | [] => false
  | c :: s' => re_match (deriv c r) s'
  end.

(** The words a pattern matches in full. *)
Inductive lang : regex -> pystr -> Prop :=
| LEps : lang REps []
| LChr c : lang (RChr c) [c]
| LSet items c : in_set items c = true -> lang (RSet items) [c]
| LSeq a b s t : lang a s -> lang b t -> lang (RSeq a b) (s ++ t)
| LAltL a b s : lang a s -> lang (RAlt a b) s
| LAltR a b s : lang b s -> lang (RAlt a b) s
| LStarNil a : lang (RStar a) []
| LStarApp a s t : lang a s -> lang (RStar a) t -> lang (RStar a) (s ++ t).

End Matcher.

End Re.

(** ** Python values and exceptions *)

(** What [json.loads] builds.  A float is kept as its IEEE-754 binary64
    bit pattern; a dict as its items in insertion order, keys distinct. *)
Inductive pyval :=
| PNone
| PBool (b : bool)
| PInt (z : Z)
| PFloat (bits : Z)
| PStr (s : pystr)
| PList (items : list pyval)
| PDict (items : list (pystr * pyval)).

(** The exceptions the program raises, catches or lets through. *)
Inductive exn :=
| CalledProcessError (returncode : Z) (cmd : list pystr) (stderr : option pystr)
| FileNotFoundError (msg : pystr)
| JSONDecodeError (msg : pystr)
| ValueError (msg : pystr)
| TypeError (msg : pystr)
| AttributeError (msg : pystr)
| OtherException (msg : pystr)   (* any other subclass of Exception *)
| KeyboardInterrupt
| SystemExit (code : Z).

(** [isinstance(e, Exception)]: [KeyboardInterrupt] and [SystemExit]
    derive from [BaseException] only. *)
Definition is_Exception (e : exn) : bool :=
  match e with
  | KeyboardInterrupt | SystemExit _ => false
  | _ => true
  end.

Inductive result (A : Type) :=
| Ok (a : A)
| Raise (e : exn).
Arguments Ok {A} a.
Arguments Raise {A} e.

(** How a subprocess ends: it ran and exited, or [subprocess.run] itself
    raised (the binary is missing, the user interrupts the wait, ...). *)
Inductive outcome :=
| Exited (returncode : Z) (stdout stderr : pystr)
| Failed (e : exn).

(** ** The platform *)

Record Platform := {
  (** the state of the machine outside the process *)
  OS : Type;
  (** [str.isalnum] above ASCII *)
  isalnum_high : N -> bool;
  (** [json.loads] *)
  json_loads : pystr -> result pyval;
  (** [str()] of a float, a list or a dict *)
  str_other : pyval -> pystr;
  (** [format(x, ',')] of a float *)
  float_grouped : Z -> pystr;
  (** [str()] of a [CalledProcessError] with this exit status and command *)
  cpe_str : Z -> list pystr -> pystr;
  (** [os.path.isdir] *)
  isdir : OS -> pystr -> bool;
  (** [os.makedirs(path, exist_ok=...)]; [None] is a normal return *)
  makedirs : OS -> pystr -> bool -> option exn * OS;
  (** starting a child process and waiting for it *)
  spawn : OS -> list pystr -> outcome * OS
}.

(** What [os.makedirs] promises: after a normal return the directory is
    there, and with [exist_ok=True] an existing directory is no error and
    nothing changes. *)
Record makedirs_contract (P : Platform) : Prop := {
  makedirs_creates : forall o path exist_ok o',
      makedirs P o path exist_ok = (None, o') -> isdir P o' path = true;
  makedirs_exist_ok : forall o path,
      isdir P o path = true -> makedirs P o path true = (None, o)
}.

(** ** Formatting *)

Definition str_of_Z (z : Z) : pystr := u (NilZero.string_of_int (Z.to_int z)).

(** Commas between groups of three, on the digits from the right. *)
Fixpoint group3 (rev_digits : pystr) : pystr :=
  match rev_digits with
  | a :: b :: c :: ((_ :: _) as more) => a :: b :: c :: chr "," :: group3 more
  | _ => rev_digits
  end.

Definition grouped_Z (z : Z) : pystr :=
  let digits := u (NilZero.string_of_uint (N.to_uint (Z.abs_N z))) in
  (if (z <? 0)%Z then [chr "-"] else []) ++ rev (group3 (rev digits)).

(** [str.isspace] *)
Definition py_isspace (c : N) : bool :=
  ((9 <=? c) && (c <=? 13)) || ((28 <=? c) && (c <=? 32))
  || (c =? 133) || (c =? 160) || (c =? 5760)
  || ((8192 <=? c) && (c <=? 8202))
  || (c =? 8232) || (c =? 8233) || (c =? 8239) || (c =? 8287) || (c =? 12288).

Fixpoint lstrip (s : pystr) : pystr :=
  match s with
  | c :: s' => if py_isspace c then lstrip s' else s
  | [] => []
  end.

(** [s.strip()] *)
Definition strip (s : pystr) : pystr := rev (lstrip (rev (lstrip s))).

(** [bool(v)] *)
Definition py_truthy (v : pyval) : bool :=
  match v with
  | PNone => false
  | PBool b => b
  | PInt z => negb (z =? 0)%Z
  | PFloat bits => negb (Z.land bits (2 ^ 63 - 1) =? 0)%Z
  | PStr s => negb (pystr_eqb s [])
  | PList items => match items with [] => false | _ => true end
  | PDict items => match items with [] => false | _ => true end
  end.

Fixpoint lookup (key : pystr) (items : list (pystr * pyval)) : option pyval :=
  match items with
  | [] => None
  | (k, v) :: rest => if pystr_eqb k key then Some v else lookup key rest
  end.

Definition type_name (v : pyval) : pystr :=
  match v with
  | PNone => u "NoneType"
  | PBool _ => u "bool"
  | PInt _ => u "int"
  | PFloat _ => u "float"
  | PStr _ => u "str"
  | PList _ => u "list"
  | PDict _ => u "dict"
  end.

(** [v.get(key, default)]: only a dict has the method. *)
Definition py_get (v : pyval) (key : pystr) (default : pyval) : result pyval :=
  match v with
  | PDict items =>
      Ok (match lookup key items with Some x => x | None => default end)
  | _ => Raise (AttributeError
                  (u "'" ++ type_name v ++ u "' object has no attribute 'get'"))
  end.

(** ** Effects: printing, the file system, subprocesses, exceptions *)

(** What the process does to the outside, in the order it does it. *)
Inductive event :=
| Printed (line : pystr)
| MadeDirs (path : pystr)
| Spawned (cmd : list pystr).

Record World (S : Type) := {
  os : S;
  log : list event
}.
Arguments os {S} w.
Arguments log {S} w.

Definition M (S A : Type) : Type := World S -> result A * World S.

Definition ret {S A} (a : A) : M S A := fun w => (Ok a, w).

Definition raise {S A} (e : exn) : M S A := fun w => (Raise e, w).

Definition lift {S A} (r : result A) : M S A := fun w => (r, w).

Definition bind {S A B} (m : M S A) (k : A -> M S B) : M S B :=
  fun w =>
    match m w with
    | (Ok a, w') => k a w'
    | (Raise e, w') => (Raise e, w')
    end.

Notation "x <- m ;; k" := (bind m (fun x => k))
  (at level 61, m at next level, right associativity).
Notation "m ;; k" := (bind m (fun _ => k))
  (at level 61, right associativity).

(** [try: body except ...]: the first clause that takes the exception runs,
    an exception no clause takes goes on. *)
Definition try_except {S A} (body : M S A) (handler : exn -> option (M S A))
  : M S A :=
  fun w =>
    match body w with
    | (Ok a, w') => (Ok a, w')
    | (Raise e, w') =>
        match handler e with
        | Some h => h w'
        | None => (Raise e, w')
        end
    end.

Definition print {S} (line : pystr) : M S unit :=
  fun w => (Ok tt, {| os := os w; log := log w ++ [Printed line] |}).

(** [sys.exit(code)] *)
Definition sys_exit {S A} (code : Z) : M S A := raise (SystemExit code).

Definition printed (l : list event) : list pystr :=
  flat_map (fun e => match e with Printed s => [s] | _ => [] end) l.

Definition spawned (l : list event) : list (list pystr) :=
  flat_map (fun e => match e with Spawned c => [c] | _ => [] end) l.

Definition made_dirs (l : list event) : list pystr :=
  flat_map (fun e => match e with MadeDirs p => [p] | _ => [] end) l.

(** ** The program *)

Section Program.

Variable P : Platform.

Local Abbreviation W := (World (OS P)).
Local Abbreviation Eff := (M (OS P)).

(** [str(v)] *)
Definition py_str (v : pyval) : pystr :=
  match v with
  | PNone => u "None"
  | PBool true => u "True"
  | PBool false => u "False"
  | PInt z => str_of_Z z
  | PStr s => s
  | _ => str_other P v
  end.

(** [format(v, ',')], the [:,] of an f-string field *)
Definition format_comma (v : pyval) : result pystr :=
  match v with
  | PInt z => Ok (grouped_Z z)
  | PBool b => Ok (grouped_Z (if b then 1 else 0))
  | PFloat bits => Ok (float_grouped P bits)
  | PStr _ => Raise (ValueError (u "Cannot specify ',' with 's'."))
  | _ => Raise (TypeError (u "unsupported format string passed to "
                           ++ type_name v ++ u ".__format__"))
  end.

(** [str(e)] *)
Definition exn_str (e : exn) : pystr :=
  match e with
  | CalledProcessError rc cmd _ => cpe_str P rc cmd
  | FileNotFoundError m | JSONDecodeError m | ValueError m | TypeError m
  | AttributeError m | OtherException m => m
  | KeyboardInterrupt => []
  | SystemExit c => str_of_Z c
  end.

(** [subprocess.run(cmd, capture_output=True, text=True, check=True)]:
    the captured output and error text of a child that exited with 0. *)
Definition run_captured (cmd : list pystr) : Eff (pystr * pystr) :=
  fun w =>
    let (o, os') := spawn P (os w) cmd in
    let w' := {| os := os'; log := log w ++ [Spawned cmd] |} in
    match o with
    | Failed e => (Raise e, w')
    | Exited rc out err =>
        if (rc =? 0)%Z then (Ok (out, err), w')
        else (Raise (CalledProcessError rc cmd (Some err)), w')
    end.

(** [subprocess.run(cmd, check=True)]: the child writes to the terminal
    itself; the exit status of the child comes back. *)
Definition run_streamed (cmd : list pystr) : Eff Z :=
  fun w =>
    let (o, os') := spawn P (os w) cmd in
    let w' := {| os := os'; log := log w ++ [Spawned cmd] |} in
    match o with
    | Failed e => (Raise e, w')
    | Exited rc _ _ =>
        if (rc =? 0)%Z then (Ok rc, w')
        else (Raise (CalledProcessError rc cmd None), w')
    end.

(** [os.makedirs(path, exist_ok=exist_ok)] *)
Definition os_makedirs (path : pystr) (exist_ok : bool) : Eff unit :=
  fun w =>
    match makedirs P (os w) path exist_ok with
    | (None, os') => (Ok tt, {| os := os'; log := log w ++ [MadeDirs path] |})
    | (Some e, os') => (Raise e, {| os := os'; log := log w |})
    end.

Definition version_cmd : list pystr := [u "yt-dlp"; u "--version"].

Definition check_yt_dlp_installed : Eff bool :=
  try_except
    (r <- run_captured version_cmd ;;
     print ([9989] ++ u " yt-dlp version: " ++ strip (fst r)) ;;
     ret true)
    (fun e =>
       match e with
       | CalledProcessError _ _ _ | FileNotFoundError _ =>
           Some (print ([10060] ++ u " yt-dlp is not installed") ;;
                 print (u "   Install with: pip install yt-dlp") ;;
                 ret false)
       | _ => None
       end).

Import Re.

Definition opt_scheme : regex :=
  ROpt (RSeq (RStr (u "http")) (RSeq (ROpt (RChr (chr "s"))) (RStr (u "://")))).

Definition opt_www : regex := ROpt (RStr (u "www.")).

Definition video_id : regex := RPlus (RSet [CWord; CLit (chr "-")]).

Definition youtube_patterns : list regex :=
  [ RSeq opt_scheme (RSeq opt_www (RSeq (RStr (u "youtube.com/watch?v=")) video_id));
    RSeq opt_scheme (RSeq opt_www (RSeq (RStr (u "youtu.be/")) video_id));
    RSeq opt_scheme (RSeq opt_www (RSeq (RStr (u "youtube.com/embed/")) video_id)) ].

Definition validate_youtube_url (url : pystr) : bool :=
  existsb (fun pattern => re_match (isalnum_high P) pattern url) youtube_patterns.

Definition info_cmd (url : pystr) : list pystr :=
  [u "yt-dlp"; u "--dump-json"; u "--no-playlist"; url].

(** Python's [None] is [PNone]. *)
Definition get_video_info (url : pystr) : Eff pyval :=
  try_except
    (r <- run_captured (info_cmd url) ;;
     lift (json_loads P (fst r)))
    (fun e =>
       match e with
       | CalledProcessError _ _ stderr =>
           Some (print (u "[!] Error getting video info: "
                        ++ match stderr with Some t => t | None => u "None" end) ;;
                 ret PNone)
       | JSONDecodeError _ =>
           Some (print (u "[!] Error parsing video information") ;; ret PNone)
       | _ => None
       end).

Definition formats_cmd (url : pystr) : list pystr :=
  [u "yt-dlp"; u "--list-formats"; u "--no-playlist"; url].

Definition list_formats (url : pystr) : Eff bool :=
  try_except
    (print (u "[*] Getting available formats for: " ++ url) ;;
     r <- run_captured (formats_cmd url) ;;
     print (fst r) ;;
     ret true)
    (fun e =>
       match e with
       | CalledProcessError _ _ stderr =>
           Some (print (u "[!] Error listing formats: "
                        ++ match stderr with Some t => t | None => u "None" end) ;;
                 ret false)
       | _ => None
       end).

Definition audio_selector : pystr :=
  u "bestaudio[ext=m4a]/bestaudio[ext=mp3]/bestaudio".

(** The argument list [download_video] builds. *)
Definition download_cmd (url output_path format_spec : pystr) (audio_only : bool)
  : list pystr :=
  [u "yt-dlp"; u "--output"; output_path ++ u "/%(title)s.%(ext)s";
   u "--no-playlist"; u "--progress"]
  ++ (if audio_only
      then [u "--extract-audio"; u "--audio-format"; u "mp3"]
           ++ [u "--format"; audio_selector]
      else [u "--format"; format_spec])
  ++ [url].

Definition download_video (url output_path format_spec : pystr) (audio_only : bool)
  : Eff bool :=
  try_except
    (os_makedirs output_path true ;;
     let cmd := download_cmd url output_path format_spec audio_only in
     print (u "[*] Starting download with command: " ++ join (u " ") cmd) ;;
     print (u "[*] Output directory: " ++ output_path) ;;
     rc <- run_streamed cmd ;;
     if (rc =? 0)%Z
     then print (u "[+] Download completed successfully!") ;; ret true
     else print (u "[!] Download failed with return code: " ++ str_of_Z rc) ;;
          ret false)
    (fun e =>
       match e with
       | CalledProcessError _ _ _ =>
           Some (print (u "[!] Download error: " ++ exn_str e) ;; ret false)
       | _ =>
           if is_Exception e
           then Some (print (u "[!] Unexpected error: " ++ exn_str e) ;; ret false)
           else None
       end).

(** The options as [parser.parse_args()] returns them. *)
Record Args := {
  arg_url : pystr;
  arg_output : pystr;          (* default "downloads" *)
  arg_format : pystr;          (* default "best" *)
  arg_audio : bool;
  arg_list_formats : bool;
  arg_info : bool
}.

Definition unknown : pyval := PStr (u "Unknown").

(** The five [print] lines of the [--info] branch. *)
Definition show_info (info : pyval) : Eff unit :=
  (v <- lift (py_get info (u "title") unknown) ;;
   print (u "[*] Video Title: " ++ py_str v)) ;;
  (v <- lift (py_get info (u "duration") unknown) ;;
   print (u "[*] Duration: " ++ py_str v ++ u " seconds")) ;;
  (v <- lift (py_get info (u "uploader") unknown) ;;
   print (u "[*] Uploader: " ++ py_str v)) ;;
  (v <- lift (py_get info (u "view_count") unknown) ;;
   t <- lift (format_comma v) ;;
   print (u "[*] View Count: " ++ t)) ;;
  (v <- lift (py_get info (u "upload_date") unknown) ;;
   print (u "[*] Upload Date: " ++ py_str v)).

(** The body of the [try] of [main]: exactly one of the three actions. *)
Definition dispatch (args : Args) : Eff unit :=
  if arg_info args then
    info <- get_video_info (arg_url args) ;;
    (if py_truthy info then show_info info else ret tt) ;;
    ret tt
  else if arg_list_formats args then
    (ok <- list_formats (arg_url args) ;;
     if negb ok then sys_exit 1 else ret tt) ;;
    ret tt
  else
    success <- download_video (arg_url args) (arg_output args)
                              (arg_format args) (arg_audio args) ;;
    if negb success then sys_exit 1 else ret tt.

(** The [except] clauses of [main]. *)
Definition top_handler (e : exn) : option (Eff unit) :=
  match e with
  | KeyboardInterrupt =>
      Some (print ([10] ++ u "[!] Download cancelled by user") ;; sys_exit 1)
  | _ =>
      if is_Exception e
      then Some (print (u "[!] Error: " ++ exn_str e) ;; sys_exit 1)
      else None
  end.

Definition main (args : Args) : Eff unit :=
  (ok <- check_yt_dlp_installed ;;
   if negb ok then sys_exit 1 else ret tt) ;;
  (if negb (validate_youtube_url (arg_url args))
   then print (u "[!] Error: Invalid YouTube URL: " ++ arg_url args) ;;
        sys_exit 1
   else ret tt) ;;
  try_except (dispatch args) top_handler.

(** How the process ends. *)
Inductive ending :=
| ExitStatus (code : Z)
| KilledBySigint.

(** [if __name__ == "__main__": main()]: a normal return is status 0,
    [sys.exit(n)] is status [n], an interrupt nobody caught ends the
    process by the signal, any other exception is a traceback and
    status 1. *)
Definition script (args : Args) (w : W) : ending * W :=
  match main args w with
  | (Ok _, w') => (ExitStatus 0, w')
  | (Raise (SystemExit n), w') => (ExitStatus n, w')
  | (Raise KeyboardInterrupt, w') => (KilledBySigint, w')
  | (Raise _, w') => (ExitStatus 1, w')
  end.

End Program.

(** ** The URL shapes in the words of the specification *)

Section Shapes.

Variable P : Platform.

(** A character of a video id: a word character or the hyphen. *)
Definition is_id_char (c : N) : bool :=
  Re.is_word (isalnum_high P) c || (c =? chr "-").

(** [s] starts with an optional scheme, an optional "www.", the site part
    [site] and a video id of at least one character; anything may
    follow. *)
Definition url_shape (site s : pystr) : Prop :=
  exists scheme www id rest,
    (scheme = [] \/ scheme = u "http://" \/ scheme = u "https://") /\
    (www = [] \/ www = u "www.") /\
    id <> [] /\ Forall (fun c => is_id_char c = true) id /\
    s = scheme ++ www ++ site ++ id ++ rest.

(** The watch-page form, the short-link form, the embed form. *)
Definition recognized_shape (s : pystr) : Prop :=
  url_shape (u "youtube.com/watch?v=") s \/
  url_shape (u "youtu.be/") s \/
  url_shape (u "youtube.com/embed/") s.

(** [r] matches the whole of [s]. *)
Definition full_match (r : Re.regex) (s : pystr) : bool :=
  Re.nullable (fold_left (fun q c => Re.deriv (isalnum_high P) c q) s r).

End Shapes.

(** The audio-only argument list as the specification words it: the three
    audio arguments and the selector are there and the caller's format
    expression is not. *)
Definition audio_args_as_specified (url output_path format_spec : pystr) : Prop :=
  let cmd := download_cmd url output_path format_spec true in
  In (u "--extract-audio") cmd /\ In (u "--audio-format") cmd /\
  In (u "mp3") cmd /\ In audio_selector cmd /\
  ~ In format_spec cmd.

(** What an effect may do to the outside: start only the commands of
    [allowed], and create directories only when [dirs] says so. *)
Definition confined {S A} (allowed : list (list pystr)) (dirs : bool)
  (m : M S A) : Prop :=
  forall w, exists evs,
    log (snd (m w)) = log w ++ evs /\
    (forall c, In c (spawned evs) -> In c allowed) /\
    (dirs = false -> made_dirs evs = []).

(** The value a display line of [show_info] shows for [key]: the one of
    the mapping, or the placeholder. *)
Definition field_or_unknown (items : list (pystr * pyval)) (key : pystr) : pyval :=
  match lookup key items with
  | Some x => x
  | None => unknown
  end.

(** The two lines [check_yt_dlp_installed] prints when the probe fails:
    the notice and the hint how to install the tool. *)
Definition absence_notice : list event :=
  [Printed ([10060] ++ u " yt-dlp is not installed");
   Printed (u "   Install with: pip install yt-dlp")].

(** The line the probe prints when the tool answers. *)
Definition version_line (out : pystr) : event :=
  Printed ([9989] ++ u " yt-dlp version: " ++ strip out).

(** The line [download_video] prints for an exception it catches. *)
Definition download_diagnostic (P : Platform) (e : exn) : pystr :=
  match e with
  | CalledProcessError _ _ _ => u "[!] Download error: " ++ exn_str P e
  | _ => u "[!] Unexpected error: " ++ exn_str P e
  end.

(** What [download_video] does up to the start of the tool, when the
    directory could be made. *)
Definition download_prelude (url output_path format_spec : pystr)
  (audio_only : bool) : list event :=
  let cmd := download_cmd url output_path format_spec audio_only in
  [MadeDirs output_path;
   Printed (u "[*] Starting download with command: " ++ join (u " ") cmd);
   Printed (u "[*] Output directory: " ++ output_path);
   Spawned cmd].

(** The values the [:,] of the view-count line can format. *)
Definition is_number (v : pyval) : bool :=
  match v with
  | PInt _ | PBool _ | PFloat _ => true
  | _ => false
  end.

(** The line [main] prints when the user interrupts an action. *)
Definition cancel_notice : event :=
  Printed ([10] ++ u "[!] Download cancelled by user").

(** A command line of the kind the program builds for the URL [url]: the
    version probe, or a call of yt-dlp with playlist expansion off and
    the URL as its last argument. *)
Definition command_allowed (url : pystr) (c : list pystr) : Prop :=
  c = version_cmd \/
  (hd_error c = Some (u "yt-dlp") /\ In (u "--no-playlist") c /\
   last c [] = url).

(** What a run with the options [args] may do to the outside. *)
Definition event_allowed (args : Args) (e : event) : Prop :=
  match e with
  | Printed _ => True
  | Spawned c => command_allowed (arg_url args) c
  | MadeDirs p =>
      arg_info args = false /\ arg_list_formats args = false /\
      p = arg_output args
  end.

(** Every event of the action satisfies [ok]. *)
Definition emits {S A} (ok : event -> Prop) (m : M S A) : Prop :=
  forall w, exists evs, log (snd (m w)) = log w ++ evs /\ Forall ok evs.

(** The downloader as the specification words it: whatever the
    invocation does, it returns [True] or [False] and does not raise. *)
Definition download_returns (P : Platform)
  (url output_path format_spec : pystr) (audio_only : bool)
  (w : World (OS P)) : Prop :=
  exists b, fst (download_video P url output_path format_spec audio_only w) = Ok b.

(** ** A small platform to run the program on *)

Module Demo.

(** The machine is the list of the directories that exist.  The child
    processes answer by [respond], [json.loads] is [parse]. *)
Definition platform (respond : list pystr -> outcome)
  (parse : pystr -> result pyval) : Platform :=
  {| OS := list pystr;
     isalnum_high := fun _ => false;
     json_loads := parse;
     str_other := fun _ => u "...";
     float_grouped := fun _ => u "...";
     cpe_str := fun rc _ =>
       u "Command returned non-zero exit status " ++ str_of_Z rc ++ u ".";
     isdir := fun o p => existsb (pystr_eqb p) o;
     makedirs := fun o p exist_ok =>
       if existsb (pystr_eqb p) o
       then if exist_ok then (None, o)
            else (Some (OtherException (u "File exists")), o)
       else match p with
            | [] => (Some (FileNotFoundError (u "No such file or directory")), o)
            | _ => (None, p :: o)
            end;
     spawn := fun o cmd => (respond cmd, o) |}.

Definition video : pystr := u "https://www.youtube.com/watch?v=dQw4w9WgXcQ".

Definition args (info lst audio : bool) : Args :=
  {| arg_url := video; arg_output := u "downloads"; arg_format := u "best";
     arg_audio := audio; arg_list_formats := lst; arg_info := info |}.

Definition start : World (list pystr) := {| os := []; log := [] |}.

(** The tool is installed and every other command exits with [rc]. *)
Definition tool (rc : Z) (out err : pystr) (cmd : list pystr) : outcome :=
  if list_eq_dec (list_eq_dec N.eq_dec) cmd version_cmd
  then Exited 0 (u "2024.01.01") []
  else Exited rc out err.

(** The tool is not on the path. *)
Definition no_tool (cmd : list pystr) : outcome :=
  Failed (FileNotFoundError (u "[Errno 2] No such file or directory: 'yt-dlp'")).

(** A parser that knows one document: [title_only] is what [json.loads]
    gives for a JSON object with the one key title. *)
Definition title_only : pyval := PDict [(u "title", PStr (u "Demo"))].

(** The text of that object; 34 is the double quote. *)
Definition title_only_text : pystr :=
  u "{" ++ [34] ++ u "title" ++ [34] ++ u ": " ++ [34] ++ u "Demo" ++ [34] ++ u "}".

Definition parse_title_only (s : pystr) : result pyval :=
  if pystr_eqb s title_only_text then Ok title_only
  else Raise (JSONDecodeError (u "Expecting value")).

(** The tool is installed and every other command ends as [o]. *)
Definition tool_then (o : outcome) (cmd : list pystr) : outcome :=
  if list_eq_dec (list_eq_dec N.eq_dec) cmd version_cmd
  then Exited 0 (u "2024.01.01") []
  else o.

(** A parser that gives [v] for every text. *)
Definition parse_as (v : pyval) (s : pystr) : result pyval := Ok v.

(** A mapping with all five fields. *)
Definition complete_items : list (pystr * pyval) :=
  [(u "title", PStr (u "Demo")); (u "duration", PInt 212);
   (u "uploader", PStr (u "Someone")); (u "view_count", PInt 1234567);
   (u "upload_date", PStr (u "20091025"))].

Definition complete : pyval := PDict complete_items.

End Demo.

(** * Properties *)

(** ** Text *)

Lemma pystr_eqb_eq a b : pystr_eqb a b = true <-> a = b.
Proof.
  revert b; induction a as [|x a IH]; intros [|y b]; simpl; split;
    try congruence; try reflexivity.
  - intros H. apply andb_true_iff in H as [H1 H2].
    apply N.eqb_eq in H1. apply IH in H2. now subst.
  - intros H. injection H as -> ->. rewrite N.eqb_refl. now apply IH.
Qed.

(** ** The matcher against the words a pattern denotes *)

Module ReFacts.
Import Re.

Section Sound.

Variable hi : N -> bool.

Local Abbreviation lang := (Re.lang hi).
Local Abbreviation deriv := (Re.deriv hi).

Lemma lang_nil_nullable r s : lang r s -> s = [] -> nullable r = true.
Proof.
  induction 1 as [ | | | a b s t _ IHa _ IHb | a b s _ IH | a b s _ IH | | ];
    intros E; simpl; try discriminate; try reflexivity.
  - apply app_eq_nil in E as [-> ->]. now rewrite IHa, IHb.
  - now rewrite IH.
  - rewrite IH by assumption. apply orb_true_r.
Qed.

Lemma nullable_lang_nil r : nullable r = true -> lang r [].
Proof.
  induction r as [ | | c | items | a IHa b IHb | a IHa b IHb | a IHa ];
    simpl; intros H; try discriminate.
  - constructor.
  - apply andb_true_iff in H as [Ha Hb].
    change (@nil N) with (@nil N ++ []). constructor; auto.
  - apply orb_true_iff in H as [Ha | Hb].
    + apply LAltL; auto.
    + apply LAltR; auto.
  - constructor.
Qed.

Lemma deriv_sound c r : forall s, lang (deriv c r) s -> lang r (c :: s).
Proof.
  induction r as [ | | d | items | a IHa b IHb | a IHa b IHb | a IHa ];
    simpl; intros s H.
  - inversion H.
  - inversion H.
  - destruct (N.eqb_spec c d) as [-> | _]; inversion H; subst. constructor.
  - destruct (in_set hi items c) eqn:E; inversion H; subst. now constructor.
  - destruct (nullable a) eqn:Na.
    + inversion H as [ | | | | a0 b0 s0 H1 | a0 b0 s0 H1 | | ]; subst.
      * inversion H1; subst.
        change (c :: ?x ++ ?y) with ((c :: x) ++ y). constructor; auto.
      * change (c :: s) with ([] ++ c :: s).
        constructor; auto using nullable_lang_nil.
    + inversion H; subst.
      change (c :: ?x ++ ?y) with ((c :: x) ++ y). constructor; auto.
  - inversion H; subst; [apply LAltL | apply LAltR]; auto.
  - inversion H; subst.
    change (c :: ?x ++ ?y) with ((c :: x) ++ y). constructor; auto.
Qed.

Lemma deriv_complete c r w :
  lang r w -> forall s, w = c :: s -> lang (deriv c r) s.
Proof.
  induction 1 as [ | d | items d Hd | a b s t Ha IHa Hb IHb
                 | a b s _ IH | a b s _ IH | a | a s t Ha IHa Hs IHs ];
    intros s' E; simpl.
  - discriminate.
  - injection E as -> <-. rewrite N.eqb_refl. constructor.
  - injection E as -> <-. rewrite Hd. constructor.
  - destruct s as [|x s].
    + simpl in E. rewrite (lang_nil_nullable _ _ Ha eq_refl).
      apply LAltR. auto.
    + simpl in E. injection E as -> <-.
      destruct (nullable a); [apply LAltL|]; constructor; auto.
  - apply LAltL; auto.
  - apply LAltR; auto.
  - discriminate.
  - destruct s as [|x s].
    + simpl in E. apply (IHs _ E).
    + simpl in E. injection E as -> <-. constructor; auto.
Qed.

Lemma deriv_lang c r s : lang (deriv c r) s <-> lang r (c :: s).
Proof.
  split; [apply deriv_sound | intros H; now apply (deriv_complete c r (c :: s))].
Qed.

(** [re.match] finds a match exactly when a prefix is a word of the
    pattern. *)
Lemma re_match_prefix s : forall r,
  re_match hi r s = true <-> exists p t, s = p ++ t /\ lang r p.
Proof.
  induction s as [|c s IH]; intros r; simpl.
  - rewrite orb_false_r. split.
    + intros H. exists [], []. split; auto using nullable_lang_nil.
    + intros (p & t & E & H). symmetry in E.
      apply app_eq_nil in E as [-> _]. now apply (lang_nil_nullable r []).
  - split.
    + intros H. apply orb_true_iff in H as [H | H].
      * exists [], (c :: s). split; auto using nullable_lang_nil.
      * apply IH in H as (p & t & -> & H). exists (c :: p), t.
        split; [reflexivity | now apply deriv_sound].
    + intros (p & t & E & H). destruct p as [|x p].
      * rewrite (lang_nil_nullable r [] H eq_refl). reflexivity.
      * simpl in E. injection E as <- ->. apply orb_true_iff. right.
        apply IH. exists p, t. split; [reflexivity | now apply deriv_lang].
Qed.

Lemma lang_seq a b s :
  lang (RSeq a b) s <-> exists s1 s2, s = s1 ++ s2 /\ lang a s1 /\ lang b s2.
Proof.
  split.
  - intros H. inversion H; subst. eauto.
  - intros (s1 & s2 & -> & H1 & H2). now constructor.
Qed.

Lemma lang_opt r s : lang (ROpt r) s <-> s = [] \/ lang r s.
Proof.
  unfold ROpt. split.
  - intros H. inversion H as [ | | | | ? ? ? H1 | ? ? ? H1 | | ]; subst; auto.
    inversion H1. auto.
  - intros [-> | H]; [apply LAltR; constructor | now apply LAltL].
Qed.

Lemma lang_chr c s : lang (RChr c) s <-> s = [c].
Proof.
  split; [intros H; now inversion H | intros ->; constructor].
Qed.

Lemma lang_str w : forall s, lang (RStr w) s <-> s = w.
Proof.
  induction w as [|c w IH]; intros s; simpl.
  - split; [intros H; now inversion H | intros ->; constructor].
  - rewrite lang_seq. split.
    + intros (s1 & s2 & -> & H1 & H2). apply lang_chr in H1 as ->.
      apply IH in H2 as ->. reflexivity.
    + intros ->. exists [c], w. repeat split; [constructor | now apply IH].
Qed.

Lemma lang_star_set items s :
  lang (RStar (RSet items)) s <-> Forall (fun c => in_set hi items c = true) s.
Proof.
  split.
  - intros H. remember (RStar (RSet items)) as r eqn:E.
    induction H as [ | | | | | | a | a s t Ha _ Hs IHs ]; try discriminate.
    + constructor.
    + injection E as ->. inversion Ha; subst. simpl. constructor; auto.
  - induction 1 as [|c s Hc _ IH].
    + constructor.
    + change (c :: s) with ([c] ++ s). constructor; [now constructor | exact IH].
Qed.

Lemma lang_plus_set items s :
  lang (RPlus (RSet items)) s <->
  s <> [] /\ Forall (fun c => in_set hi items c = true) s.
Proof.
  unfold RPlus. rewrite lang_seq. split.
  - intros (s1 & s2 & -> & H1 & H2). inversion H1; subst.
    apply lang_star_set in H2. split; [discriminate | now constructor].
  - intros [Hne H]. destruct s as [|c s]; [contradiction|].
    inversion H; subst. exists [c], s.
    repeat split; [now constructor | now apply lang_star_set].
Qed.

(** A match of the whole string, by derivatives. *)
Lemma fold_deriv_lang s : forall r,
  nullable (fold_left (fun q c => deriv c q) s r) = true <-> lang r s.
Proof.
  induction s as [|c s IH]; intros r; simpl.
  - split; [apply nullable_lang_nil | intros H; now apply (lang_nil_nullable r [])].
  - rewrite IH. apply deriv_lang.
Qed.

End Sound.

End ReFacts.

(** ** The URL validator *)

Section Validation.

Variable P : Platform.

Local Abbreviation hi := (isalnum_high P).

Lemma lang_opt_scheme s :
  Re.lang hi opt_scheme s <->
  s = [] \/ s = u "http://" \/ s = u "https://".
Proof.
  unfold opt_scheme. rewrite ReFacts.lang_opt, ReFacts.lang_seq. split.
  - intros [-> | (s1 & s2 & -> & H1 & H2)]; [now left | right].
    apply ReFacts.lang_str in H1 as ->.
    apply ReFacts.lang_seq in H2 as (s3 & s4 & -> & H3 & H4).
    apply ReFacts.lang_str in H4 as ->.
    apply ReFacts.lang_opt in H3 as [-> | H3]; [now left | right].
    apply ReFacts.lang_chr in H3 as ->. reflexivity.
  - intros [-> | [-> | ->]]; [now left | right | right].
    + exists (u "http"), (u "://"). repeat split.
      * now apply ReFacts.lang_str.
      * apply ReFacts.lang_seq. exists [], (u "://"). repeat split.
        -- apply ReFacts.lang_opt. now left.
        -- now apply ReFacts.lang_str.
    + exists (u "http"), (u "s://"). repeat split.
      * now apply ReFacts.lang_str.
      * apply ReFacts.lang_seq. exists [chr "s"], (u "://"). repeat split.
        -- apply ReFacts.lang_opt. right. now apply ReFacts.lang_chr.
        -- now apply ReFacts.lang_str.
Qed.

Lemma lang_opt_www s :
  Re.lang hi opt_www s <-> s = [] \/ s = u "www.".
Proof.
  unfold opt_www. rewrite ReFacts.lang_opt, ReFacts.lang_str. reflexivity.
Qed.

Lemma id_char_in_set c :
  Re.in_set hi [Re.CWord; Re.CLit (chr "-")] c = is_id_char P c.
Proof.
  unfold Re.in_set, is_id_char. simpl. now rewrite orb_false_r.
Qed.

Lemma lang_video_id s :
  Re.lang hi video_id s <->
  s <> [] /\ Forall (fun c => is_id_char P c = true) s.
Proof.
  unfold video_id. rewrite ReFacts.lang_plus_set.
  split; intros [Hne H]; split; auto; revert H; apply Forall_impl; intros c Hc.
  - now rewrite <- id_char_in_set.
  - now rewrite id_char_in_set.
Qed.

(** One pattern of the list, for the site part [site]. *)
Lemma lang_pattern site p :
  Re.lang hi (Re.RSeq opt_scheme (Re.RSeq opt_www
                (Re.RSeq (Re.RStr site) video_id))) p <->
  exists scheme www id,
    (scheme = [] \/ scheme = u "http://" \/ scheme = u "https://") /\
    (www = [] \/ www = u "www.") /\
    id <> [] /\ Forall (fun c => is_id_char P c = true) id /\
    p = scheme ++ www ++ site ++ id.
Proof.
  rewrite ReFacts.lang_seq. split.
  - intros (scheme & r1 & -> & Hs & H1).
    apply ReFacts.lang_seq in H1 as (www & r2 & -> & Hw & H2).
    apply ReFacts.lang_seq in H2 as (st & id & -> & Hst & Hid).
    apply ReFacts.lang_str in Hst as ->.
    apply lang_opt_scheme in Hs. apply lang_opt_www in Hw.
    apply lang_video_id in Hid as [Hne Hid].
    exists scheme, www, id. auto.
  - intros (scheme & www & id & Hs & Hw & Hne & Hid & ->).
    exists scheme, (www ++ site ++ id). repeat split.
    + now apply lang_opt_scheme.
    + apply ReFacts.lang_seq. exists www, (site ++ id). repeat split.
      * now apply lang_opt_www.
      * apply ReFacts.lang_seq. exists site, id. repeat split.
        -- now apply ReFacts.lang_str.
        -- now apply lang_video_id.
Qed.

Lemma re_match_shape site s :
  Re.re_match hi (Re.RSeq opt_scheme (Re.RSeq opt_www
                    (Re.RSeq (Re.RStr site) video_id))) s = true <->
  url_shape P site s.
Proof.
  rewrite ReFacts.re_match_prefix. unfold url_shape. split.
  - intros (p & t & -> & H).
    apply lang_pattern in H as (scheme & www & id & Hs & Hw & Hne & Hid & ->).
    exists scheme, www, id, t. repeat split; auto.
    now rewrite <- !app_assoc.
  - intros (scheme & www & id & rest & Hs & Hw & Hne & Hid & ->).
    exists (scheme ++ www ++ site ++ id), rest. split.
    + now rewrite <- !app_assoc.
    + apply lang_pattern. exists scheme, www, id. auto.
Qed.

(** The validator accepts exactly the strings of a recognized shape. *)
Lemma validate_iff_shape s :
  validate_youtube_url P s = true <-> recognized_shape P s.
Proof.
  unfold validate_youtube_url, youtube_patterns, recognized_shape.
  cbn [existsb]. rewrite orb_false_r, !orb_true_iff, !re_match_shape. tauto.
Qed.

(** The validator accepts when one of the patterns matches a prefix in
    full. *)
Lemma validate_iff_prefix s :
  validate_youtube_url P s = true <->
  exists p rest, s = p ++ rest /\
    Exists (fun pattern => Re.lang hi pattern p) youtube_patterns.
Proof.
  unfold validate_youtube_url. rewrite existsb_exists. split.
  - intros (r & Hin & H). apply ReFacts.re_match_prefix in H as (p & t & -> & H).
    exists p, t. split; [reflexivity|]. apply Exists_exists. eauto.
  - intros (p & t & -> & H). apply Exists_exists in H as (r & Hin & H).
    exists r. split; [assumption|]. apply ReFacts.re_match_prefix. eauto.
Qed.

(** A pattern matches the whole of a string exactly when [full_match]
    says so. *)
Lemma full_match_lang r s :
  full_match P r s = true <-> Re.lang hi r s.
Proof. apply ReFacts.fold_deriv_lang. Qed.

End Validation.

(** C3.  A string of one of the three recognized shapes (watch page,
    short link, embed; with or without scheme, with or without "www",
    from the first character on, in exactly these letters) is accepted
    by the validator, and a string of none of the three shapes is
    rejected. *)
Theorem validate_youtube_url_shapes (P : Platform) (s : pystr) :
  (recognized_shape P s -> validate_youtube_url P s = true) /\
  (~ recognized_shape P s -> validate_youtube_url P s = false).
Proof.
  split.
  - apply validate_iff_shape.
  - intros H. destruct (validate_youtube_url P s) eqn:E; [|reflexivity].
    apply validate_iff_shape in E. contradiction.
Qed.

(** C9.  Validation matches a prefix: when one of the three patterns
    matches the string [p] in full, the validator accepts [p] followed by
    any further characters. *)
Theorem validate_youtube_url_prefix (P : Platform) (p rest : pystr) :
  Exists (fun pattern => Re.lang (isalnum_high P) pattern p) youtube_patterns ->
  validate_youtube_url P (p ++ rest) = true.
Proof.
  intros H. apply validate_iff_prefix. eauto.
Qed.

(** The two examples of the specification, and the letters that matter. *)
Example validate_examples :
  let Q := Demo.platform Demo.no_tool Demo.parse_title_only in
  validate_youtube_url Q (u "https://www.youtube.com/watch?v=dQw4w9WgXcQ") = true /\
  validate_youtube_url Q (u "https://vimeo.com/12345") = false /\
  validate_youtube_url Q (u "youtu.be/a-b_c") = true /\
  validate_youtube_url Q (u "http://www.youtube.com/embed/x") = true /\
  validate_youtube_url Q (u "HTTPS://youtube.com/watch?v=a") = false /\
  validate_youtube_url Q (u "https://youtube.com/watch?v=") = false /\
  validate_youtube_url Q (u " https://youtube.com/watch?v=a") = false.
Proof. vm_compute. repeat split. Qed.

Lemma validate_youtube_url_shapes_witness :
  let Q := Demo.platform Demo.no_tool Demo.parse_title_only in
  (recognized_shape Q Demo.video /\ validate_youtube_url Q Demo.video = true) /\
  (~ recognized_shape Q (u "https://vimeo.com/12345") /\
   validate_youtube_url Q (u "https://vimeo.com/12345") = false).
Proof.
  intros Q.
  assert (H1 : recognized_shape Q Demo.video).
  { left. exists (u "https://"), (u "www."), (u "dQw4w9WgXcQ"), [].
    repeat split; auto; try discriminate. repeat constructor. }
  assert (H2 : ~ recognized_shape Q (u "https://vimeo.com/12345")).
  { intros H. apply validate_iff_shape in H. vm_compute in H. discriminate. }
  split; (split; [assumption|]).
  - exact (proj1 (validate_youtube_url_shapes Q _) H1).
  - exact (proj2 (validate_youtube_url_shapes Q _) H2).
Defined.

Lemma validate_youtube_url_prefix_witness :
  let Q := Demo.platform Demo.no_tool Demo.parse_title_only in
  Exists (fun pattern => Re.lang (isalnum_high Q) pattern Demo.video)
         youtube_patterns /\
  validate_youtube_url Q (Demo.video ++ u " and whatever follows") = true.
Proof.
  intros Q.
  assert (H : Exists (fun pattern => Re.lang (isalnum_high Q) pattern Demo.video)
                     youtube_patterns).
  { apply Exists_cons_hd. apply full_match_lang. vm_compute. reflexivity. }
  split; [exact H|].
  exact (validate_youtube_url_prefix Q Demo.video (u " and whatever follows") H).
Defined.

(** The accepted string of the last example is matched in full by none of
    the patterns: the validator does not ask for it. *)
Example prefix_not_full_match :
  let Q := Demo.platform Demo.no_tool Demo.parse_title_only in
  ~ Exists (fun pattern =>
              Re.lang (isalnum_high Q) pattern
                      (Demo.video ++ u " and whatever follows"))
           youtube_patterns.
Proof.
  intros Q H. apply Exists_exists in H as (r & Hin & H).
  apply full_match_lang in H.
  destruct Hin as [<- | [<- | [<- | []]]]; vm_compute in H; discriminate.
Qed.

(** ** Subprocesses *)

Section Runs.

Variable P : Platform.

Local Abbreviation W := (World (OS P)).

Lemma run_captured_ok cmd (w : W) out err o' :
  spawn P (os w) cmd = (Exited 0 out err, o') ->
  run_captured P cmd w =
  (Ok (out, err), {| os := o'; log := log w ++ [Spawned cmd] |}).
Proof. intros H. unfold run_captured. now rewrite H. Qed.

Lemma run_captured_nonzero cmd (w : W) rc out err o' :
  rc <> 0%Z ->
  spawn P (os w) cmd = (Exited rc out err, o') ->
  run_captured P cmd w =
  (Raise (CalledProcessError rc cmd (Some err)),
   {| os := o'; log := log w ++ [Spawned cmd] |}).
Proof.
  intros Hrc H. unfold run_captured. rewrite H.
  apply Z.eqb_neq in Hrc. now rewrite Hrc.
Qed.

Lemma run_captured_failed cmd (w : W) e o' :
  spawn P (os w) cmd = (Failed e, o') ->
  run_captured P cmd w =
  (Raise e, {| os := o'; log := log w ++ [Spawned cmd] |}).
Proof. intros H. unfold run_captured. now rewrite H. Qed.

Lemma run_streamed_ok cmd (w : W) out err o' :
  spawn P (os w) cmd = (Exited 0 out err, o') ->
  run_streamed P cmd w =
  (Ok 0%Z, {| os := o'; log := log w ++ [Spawned cmd] |}).
Proof. intros H. unfold run_streamed. now rewrite H. Qed.

Lemma run_streamed_nonzero cmd (w : W) rc out err o' :
  rc <> 0%Z ->
  spawn P (os w) cmd = (Exited rc out err, o') ->
  run_streamed P cmd w =
  (Raise (CalledProcessError rc cmd None),
   {| os := o'; log := log w ++ [Spawned cmd] |}).
Proof.
  intros Hrc H. unfold run_streamed. rewrite H.
  apply Z.eqb_neq in Hrc. now rewrite Hrc.
Qed.

Lemma run_streamed_failed cmd (w : W) e o' :
  spawn P (os w) cmd = (Failed e, o') ->
  run_streamed P cmd w =
  (Raise e, {| os := o'; log := log w ++ [Spawned cmd] |}).
Proof. intros H. unfold run_streamed. now rewrite H. Qed.

(** *** The version probe *)

Lemma check_installed (w : W) out err o' :
  spawn P (os w) version_cmd = (Exited 0 out err, o') ->
  check_yt_dlp_installed P w =
  (Ok true,
   {| os := o';
      log := log w ++ [Spawned version_cmd; version_line out] |}).
Proof.
  intros H. unfold check_yt_dlp_installed, try_except, bind.
  rewrite (run_captured_ok _ _ _ _ _ H). unfold print, ret. cbn [os log fst].
  now rewrite <- app_assoc.
Qed.

Lemma check_absent (w : W) o' :
  (exists m, spawn P (os w) version_cmd = (Failed (FileNotFoundError m), o')) \/
  (exists rc out err, rc <> 0%Z /\
     spawn P (os w) version_cmd = (Exited rc out err, o')) ->
  check_yt_dlp_installed P w =
  (Ok false,
   {| os := o'; log := log w ++ Spawned version_cmd :: absence_notice |}).
Proof.
  intros [(m & H) | (rc & out & err & Hrc & H)];
    unfold check_yt_dlp_installed, try_except, bind.
  - rewrite (run_captured_failed _ _ _ _ H). unfold print, ret. cbn [os log].
    now rewrite <- !app_assoc.
  - rewrite (run_captured_nonzero _ _ _ _ _ _ Hrc H). unfold print, ret.
    cbn [os log]. now rewrite <- !app_assoc.
Qed.

End Runs.

(** ** The metadata query *)

Section Query.

Variable P : Platform.

Local Abbreviation W := (World (OS P)).

Lemma get_video_info_nonzero url (w : W) rc out err o' :
  rc <> 0%Z ->
  spawn P (os w) (info_cmd url) = (Exited rc out err, o') ->
  get_video_info P url w =
  (Ok PNone,
   {| os := o';
      log := log w ++ [Spawned (info_cmd url);
                       Printed (u "[!] Error getting video info: " ++ err)] |}).
Proof.
  intros Hrc H. unfold get_video_info, try_except, bind.
  rewrite (run_captured_nonzero _ _ _ _ _ _ _ Hrc H).
  unfold print, ret. cbn [os log]. now rewrite <- app_assoc.
Qed.

Lemma get_video_info_unparseable url (w : W) out err o' m :
  spawn P (os w) (info_cmd url) = (Exited 0 out err, o') ->
  json_loads P out = Raise (JSONDecodeError m) ->
  get_video_info P url w =
  (Ok PNone,
   {| os := o';
      log := log w ++ [Spawned (info_cmd url);
                       Printed (u "[!] Error parsing video information")] |}).
Proof.
  intros H Hj. unfold get_video_info, try_except, bind.
  rewrite (run_captured_ok _ _ _ _ _ _ H). unfold lift. cbn [fst]. rewrite Hj.
  unfold print, ret. cbn [os log]. now rewrite <- app_assoc.
Qed.

Lemma get_video_info_parsed url (w : W) out err o' v :
  spawn P (os w) (info_cmd url) = (Exited 0 out err, o') ->
  json_loads P out = Ok v ->
  get_video_info P url w =
  (Ok v, {| os := o'; log := log w ++ [Spawned (info_cmd url)] |}).
Proof.
  intros H Hj. unfold get_video_info, try_except, bind.
  rewrite (run_captured_ok _ _ _ _ _ _ H). unfold lift. cbn [fst].
  now rewrite Hj.
Qed.

End Query.

(** C5.  When the tool exits with a status other than zero, the metadata
    query prints the tool's error text and returns [None]; when the
    tool's output is not JSON, it prints a parse failure and returns
    [None].  In both cases the query returns: no exception reaches the
    caller. *)
Theorem get_video_info_failures (P : Platform) (url : pystr)
  (w : World (OS P)) (o' : OS P) :
  (forall rc out err,
      rc <> 0%Z ->
      spawn P (os w) (info_cmd url) = (Exited rc out err, o') ->
      get_video_info P url w =
      (Ok PNone,
       {| os := o';
          log := log w ++ [Spawned (info_cmd url);
                           Printed (u "[!] Error getting video info: " ++ err)] |}))
  /\
  (forall out err m,
      spawn P (os w) (info_cmd url) = (Exited 0 out err, o') ->
      json_loads P out = Raise (JSONDecodeError m) ->
      get_video_info P url w =
      (Ok PNone,
       {| os := o';
          log := log w ++ [Spawned (info_cmd url);
                           Printed (u "[!] Error parsing video information")] |})).
Proof.
  split.
  - intros rc out err. apply get_video_info_nonzero.
  - intros out err m. apply get_video_info_unparseable.
Qed.

Lemma get_video_info_failures_witness :
  get_video_info (Demo.platform (Demo.tool 1 [] (u "ERROR: no such video"))
                                Demo.parse_title_only)
                 Demo.video Demo.start =
  (Ok PNone,
   {| os := [];
      log := [Spawned (info_cmd Demo.video);
              Printed (u "[!] Error getting video info: ERROR: no such video")] |})
  /\
  get_video_info (Demo.platform (Demo.tool 0 (u "<html>") [])
                                Demo.parse_title_only)
                 Demo.video Demo.start =
  (Ok PNone,
   {| os := [];
      log := [Spawned (info_cmd Demo.video);
              Printed (u "[!] Error parsing video information")] |}).
Proof.
  split.
  - refine (proj1 (get_video_info_failures
                     (Demo.platform (Demo.tool 1 [] (u "ERROR: no such video"))
                                    Demo.parse_title_only)
                     Demo.video Demo.start []) 1%Z [] _ _ _).
    + discriminate.
    + reflexivity.
  - refine (proj2 (get_video_info_failures
                     (Demo.platform (Demo.tool 0 (u "<html>") [])
                                    Demo.parse_title_only)
                     Demo.video Demo.start []) (u "<html>") []
                  (u "Expecting value") _ _).
    + reflexivity.
    + reflexivity.
Defined.

(** ** The top level *)

Section Main.

Variable P : Platform.

Local Abbreviation W := (World (OS P)).

Lemma main_absent args (w w' : W) :
  check_yt_dlp_installed P w = (Ok false, w') ->
  main P args w = (Raise (SystemExit 1), w').
Proof. intros H. unfold main, bind. now rewrite H. Qed.

Lemma main_invalid args (w w' : W) :
  check_yt_dlp_installed P w = (Ok true, w') ->
  validate_youtube_url P (arg_url args) = false ->
  main P args w =
  (Raise (SystemExit 1),
   {| os := os w';
      log := log w' ++ [Printed (u "[!] Error: Invalid YouTube URL: "
                                 ++ arg_url args)] |}).
Proof. intros H Hv. unfold main, bind. rewrite H, Hv. reflexivity. Qed.

Lemma main_dispatch args (w w' : W) :
  check_yt_dlp_installed P w = (Ok true, w') ->
  validate_youtube_url P (arg_url args) = true ->
  main P args w = try_except (dispatch P args) (top_handler P) w'.
Proof. intros H Hv. unfold main, bind. rewrite H, Hv. reflexivity. Qed.

(** The display with no view count in the mapping: three lines, then the
    thousands separator is asked of the placeholder text. *)
Lemma show_info_no_view_count items (w : W) :
  lookup (u "view_count") items = None ->
  show_info P (PDict items) w =
  (Raise (ValueError (u "Cannot specify ',' with 's'.")),
   {| os := os w;
      log := log w ++
        [Printed (u "[*] Video Title: "
                  ++ py_str P (field_or_unknown items (u "title")));
         Printed (u "[*] Duration: "
                  ++ py_str P (field_or_unknown items (u "duration"))
                  ++ u " seconds");
         Printed (u "[*] Uploader: "
                  ++ py_str P (field_or_unknown items (u "uploader")))] |}).
Proof.
  intros H. unfold show_info, bind, lift, print, py_get. cbn [os log].
  rewrite H. cbn [format_comma unknown]. now rewrite <- !app_assoc.
Qed.

(** The display when the view count is an integer: all five lines, the
    placeholder for whatever else is missing. *)
Lemma show_info_complete items n (w : W) :
  lookup (u "view_count") items = Some (PInt n) ->
  show_info P (PDict items) w =
  (Ok tt,
   {| os := os w;
      log := log w ++
        [Printed (u "[*] Video Title: "
                  ++ py_str P (field_or_unknown items (u "title")));
         Printed (u "[*] Duration: "
                  ++ py_str P (field_or_unknown items (u "duration"))
                  ++ u " seconds");
         Printed (u "[*] Uploader: "
                  ++ py_str P (field_or_unknown items (u "uploader")));
         Printed (u "[*] View Count: " ++ grouped_Z n);
         Printed (u "[*] Upload Date: "
                  ++ py_str P (field_or_unknown items (u "upload_date")))] |}).
Proof.
  intros H. unfold show_info, bind, lift, print, py_get. cbn [os log].
  rewrite H. cbn [format_comma]. cbv beta iota. cbn [os log].
  unfold field_or_unknown. now rewrite <- !app_assoc.
Qed.

End Main.

(** C7.  When the tool is not on the path, or the version probe exits
    with a status other than zero, the program prints the absence notice
    and the hint how to install, and ends with status 1.  Nothing else
    happens: the probe is the only subprocess, and the URL, valid or
    not, plays no part. *)
Theorem tool_absent_exits_early (P : Platform) (args : Args)
  (w : World (OS P)) (o' : OS P) :
  (exists m, spawn P (os w) version_cmd = (Failed (FileNotFoundError m), o')) \/
  (exists rc out err, rc <> 0%Z /\
     spawn P (os w) version_cmd = (Exited rc out err, o')) ->
  script P args w =
  (ExitStatus 1,
   {| os := o'; log := log w ++ Spawned version_cmd :: absence_notice |}).
Proof.
  intros H. unfold script.
  now rewrite (main_absent P args _ _ (check_absent P w o' H)).
Qed.

Lemma tool_absent_exits_early_witness :
  let bad := {| arg_url := u "not a url"; arg_output := u "downloads";
                arg_format := u "best"; arg_audio := false;
                arg_list_formats := false; arg_info := false |} in
  script (Demo.platform Demo.no_tool Demo.parse_title_only) bad Demo.start =
  (ExitStatus 1, {| os := []; log := Spawned version_cmd :: absence_notice |})
  /\
  script (Demo.platform (fun _ => Exited 2 [] []) Demo.parse_title_only)
         (Demo.args false false false) Demo.start =
  (ExitStatus 1, {| os := []; log := Spawned version_cmd :: absence_notice |}).
Proof.
  intros bad. split.
  - apply (tool_absent_exits_early
             (Demo.platform Demo.no_tool Demo.parse_title_only) bad Demo.start []).
    left. eexists. reflexivity.
  - apply (tool_absent_exits_early
             (Demo.platform (fun _ => Exited 2 [] []) Demo.parse_title_only)
             (Demo.args false false false) Demo.start []).
    right. exists 2%Z, [], []. split; [discriminate | reflexivity].
Defined.

(** C2, as the code has it.  With [--info], a metadata query that fails
    (the tool exits with a status other than zero, or its output is not
    JSON) prints its diagnostic, and the program then ends with status 0,
    not 1: [main] does not look at the [None] the query returns, where
    the two other actions call [sys.exit(1)] on failure. *)
Theorem info_failure_exit_status (P : Platform) (args : Args)
  (w : World (OS P)) (out0 err0 : pystr) (o1 o2 : OS P) :
  arg_info args = true ->
  validate_youtube_url P (arg_url args) = true ->
  spawn P (os w) version_cmd = (Exited 0 out0 err0, o1) ->
  (forall rc out err,
      rc <> 0%Z ->
      spawn P o1 (info_cmd (arg_url args)) = (Exited rc out err, o2) ->
      script P args w =
      (ExitStatus 0,
       {| os := o2;
          log := log w ++
            [Spawned version_cmd; version_line out0;
             Spawned (info_cmd (arg_url args));
             Printed (u "[!] Error getting video info: " ++ err)] |}))
  /\
  (forall out err m,
      spawn P o1 (info_cmd (arg_url args)) = (Exited 0 out err, o2) ->
      json_loads P out = Raise (JSONDecodeError m) ->
      script P args w =
      (ExitStatus 0,
       {| os := o2;
          log := log w ++
            [Spawned version_cmd; version_line out0;
             Spawned (info_cmd (arg_url args));
             Printed (u "[!] Error parsing video information")] |})).
Proof.
  intros Hi Hv H0.
  pose proof (main_dispatch P args _ _ (check_installed P w _ _ _ H0) Hv) as Hm.
  split.
  - intros rc out err Hrc H. unfold script. rewrite Hm.
    unfold try_except, dispatch, bind. rewrite Hi.
    rewrite (get_video_info_nonzero P _ {| os := o1; log := _ |} rc out err o2 Hrc H).
    cbn. now rewrite <- app_assoc.
  - intros out err m H Hj. unfold script. rewrite Hm.
    unfold try_except, dispatch, bind. rewrite Hi.
    rewrite (get_video_info_unparseable P _ {| os := o1; log := _ |} out err o2 m H Hj).
    cbn. now rewrite <- app_assoc.
Qed.

Lemma info_failure_exit_status_witness :
  script (Demo.platform (Demo.tool 1 [] (u "ERROR: no such video"))
                        Demo.parse_title_only)
         (Demo.args true false false) Demo.start =
  (ExitStatus 0,
   {| os := [];
      log := [Spawned version_cmd; version_line (u "2024.01.01");
              Spawned (info_cmd Demo.video);
              Printed (u "[!] Error getting video info: ERROR: no such video")] |}).
Proof.
  refine (proj1 (info_failure_exit_status
                   (Demo.platform (Demo.tool 1 [] (u "ERROR: no such video"))
                                  Demo.parse_title_only)
                   (Demo.args true false false) Demo.start
                   (u "2024.01.01") [] [] [] _ _ _) 1%Z [] _ _ _).
  - reflexivity.
  - vm_compute. reflexivity.
  - reflexivity.
  - discriminate.
  - reflexivity.
Defined.

(** C1, as the code has it.  With [--info] and a metadata mapping that
    has no view count, the display prints the title, the duration and
    the uploader (the placeholder for those that are missing), and then
    fails on the fourth line: the thousands separator is asked of the
    placeholder, a text.  The handler of [main] prints the error and the
    program ends with status 1; no view-count line and no upload-date
    line is printed. *)
Theorem info_without_view_count (P : Platform) (args : Args)
  (w : World (OS P)) (out0 err0 out err : pystr) (o1 o2 : OS P)
  (items : list (pystr * pyval)) :
  arg_info args = true ->
  validate_youtube_url P (arg_url args) = true ->
  spawn P (os w) version_cmd = (Exited 0 out0 err0, o1) ->
  spawn P o1 (info_cmd (arg_url args)) = (Exited 0 out err, o2) ->
  json_loads P out = Ok (PDict items) ->
  items <> [] ->
  lookup (u "view_count") items = None ->
  script P args w =
  (ExitStatus 1,
   {| os := o2;
      log := log w ++
        [Spawned version_cmd; version_line out0;
         Spawned (info_cmd (arg_url args));
         Printed (u "[*] Video Title: "
                  ++ py_str P (field_or_unknown items (u "title")));
         Printed (u "[*] Duration: "
                  ++ py_str P (field_or_unknown items (u "duration"))
                  ++ u " seconds");
         Printed (u "[*] Uploader: "
                  ++ py_str P (field_or_unknown items (u "uploader")));
         Printed (u "[!] Error: Cannot specify ',' with 's'.")] |}).
Proof.
  intros Hi Hv H0 H1 Hj Hne Hl.
  pose proof (main_dispatch P args _ _ (check_installed P w _ _ _ H0) Hv) as Hm.
  unfold script. rewrite Hm.
  unfold try_except, dispatch, bind at 1. rewrite Hi.
  rewrite (get_video_info_parsed P _ {| os := o1; log := _ |} out err o2 _ H1 Hj).
  assert (Ht : py_truthy (PDict items) = true) by (destruct items; [now contradiction Hne | reflexivity]).
  rewrite Ht. unfold bind at 1.
  rewrite (show_info_no_view_count P items _ Hl).
  cbn. now rewrite <- !app_assoc.
Qed.

Lemma info_without_view_count_witness :
  script (Demo.platform (Demo.tool 0 Demo.title_only_text [])
                        Demo.parse_title_only)
         (Demo.args true false false) Demo.start =
  (ExitStatus 1,
   {| os := [];
      log := [Spawned version_cmd; version_line (u "2024.01.01");
              Spawned (info_cmd Demo.video);
              Printed (u "[*] Video Title: Demo");
              Printed (u "[*] Duration: Unknown seconds");
              Printed (u "[*] Uploader: Unknown");
              Printed (u "[!] Error: Cannot specify ',' with 's'.")] |}).
Proof.
  refine (info_without_view_count
            (Demo.platform (Demo.tool 0 Demo.title_only_text [])
                           Demo.parse_title_only)
            (Demo.args true false false) Demo.start
            (u "2024.01.01") [] Demo.title_only_text [] [] []
            [(u "title", PStr (u "Demo"))] _ _ _ _ _ _ _).
  - reflexivity.
  - vm_compute. reflexivity.
  - reflexivity.
  - reflexivity.
  - reflexivity.
  - discriminate.
  - reflexivity.
Defined.

(** ** The downloader *)

Section Download.

Variable P : Platform.

Local Abbreviation W := (World (OS P)).

Variables url output_path format_spec : pystr.
Variable audio_only : bool.

Local Abbreviation cmd := (download_cmd url output_path format_spec audio_only).
Local Abbreviation prelude :=
  (download_prelude url output_path format_spec audio_only).
Local Abbreviation download :=
  (download_video P url output_path format_spec audio_only).

Lemma download_ran (w : W) o1 :
  makedirs P (os w) output_path true = (None, o1) ->
  download w =
  match spawn P o1 cmd with
  | (Exited rc _ _, o2) =>
      if (rc =? 0)%Z
      then (Ok true,
            {| os := o2;
               log := log w ++ prelude
                      ++ [Printed (u "[+] Download completed successfully!")] |})
      else (Ok false,
            {| os := o2;
               log := log w ++ prelude
                      ++ [Printed (u "[!] Download error: " ++ cpe_str P rc cmd)] |})
  | (Failed e, o2) =>
      if match e with CalledProcessError _ _ _ => true | _ => is_Exception e end
      then (Ok false,
            {| os := o2;
               log := log w ++ prelude ++ [Printed (download_diagnostic P e)] |})
      else (Raise e, {| os := o2; log := log w ++ prelude |})
  end.
Proof.
  intros Hm.
  unfold download_video, try_except, bind at 1, os_makedirs. rewrite Hm.
  unfold bind at 1, print at 1. unfold bind at 1, print at 1.
  unfold bind at 1, run_streamed. cbn [os log].
  destruct (spawn P o1 cmd) as [[rc so se | e] o2].
  - destruct (rc =? 0)%Z eqn:E.
    + apply Z.eqb_eq in E as ->. rewrite Z.eqb_refl.
      unfold bind, print, ret, download_prelude. cbn [os log].
      now rewrite <- !app_assoc.
    + unfold bind, print, ret, download_prelude. cbn [os log exn_str].
      now rewrite <- !app_assoc.
  - destruct e; cbn [is_Exception];
      unfold bind, print, ret, download_prelude, download_diagnostic;
      cbn [os log]; now rewrite <- !app_assoc.
Qed.

Lemma download_no_directory (w : W) e o1 :
  makedirs P (os w) output_path true = (Some e, o1) ->
  download w =
  if match e with CalledProcessError _ _ _ => true | _ => is_Exception e end
  then (Ok false,
        {| os := o1; log := log w ++ [Printed (download_diagnostic P e)] |})
  else (Raise e, {| os := o1; log := log w |}).
Proof.
  intros Hm.
  unfold download_video, try_except, bind at 1, os_makedirs. rewrite Hm.
  destruct e; reflexivity.
Qed.

End Download.

(** C6, as the specification words it, does not hold: when the user
    interrupts the wait for the tool, [download_video] does not return,
    it raises [KeyboardInterrupt]. *)
Lemma download_returns_fails :
  ~ download_returns
      (Demo.platform (Demo.tool_then (Failed KeyboardInterrupt))
                     Demo.parse_title_only)
      Demo.video (u "downloads") (u "best") false Demo.start.
Proof.
  intros (b & H). vm_compute in H. discriminate H.
Qed.

(** C6, amended.  The downloader returns [True] exactly when the
    directory could be made and the tool then exited with status zero.
    A status other than zero, or an exception of the class [Exception]
    from the invocation or from the creation of the directory, is printed
    as a diagnostic and the downloader returns [False].  An exception
    that is not of the class [Exception] (the interrupt of the user) is
    not caught: the downloader raises it, after what it had printed. *)
Theorem download_video_outcome (P : Platform)
  (url output_path format_spec : pystr) (audio_only : bool) (w : World (OS P)) :
  let cmd := download_cmd url output_path format_spec audio_only in
  let prelude := download_prelude url output_path format_spec audio_only in
  let download := download_video P url output_path format_spec audio_only in
  (fst (download w) = Ok true <->
   exists o1 out err o2,
     makedirs P (os w) output_path true = (None, o1) /\
     spawn P o1 cmd = (Exited 0 out err, o2))
  /\
  (forall o1 rc out err o2,
      makedirs P (os w) output_path true = (None, o1) ->
      spawn P o1 cmd = (Exited rc out err, o2) ->
      rc <> 0%Z ->
      download w =
      (Ok false,
       {| os := o2;
          log := log w ++ prelude
                 ++ [Printed (u "[!] Download error: " ++ cpe_str P rc cmd)] |}))
  /\
  (forall o1 e o2,
      makedirs P (os w) output_path true = (None, o1) ->
      spawn P o1 cmd = (Failed e, o2) ->
      is_Exception e = true ->
      download w =
      (Ok false,
       {| os := o2;
          log := log w ++ prelude ++ [Printed (download_diagnostic P e)] |}))
  /\
  (forall e o1,
      makedirs P (os w) output_path true = (Some e, o1) ->
      is_Exception e = true ->
      download w =
      (Ok false,
       {| os := o1; log := log w ++ [Printed (download_diagnostic P e)] |}))
  /\
  (forall o1 e o2,
      makedirs P (os w) output_path true = (None, o1) ->
      spawn P o1 cmd = (Failed e, o2) ->
      is_Exception e = false ->
      download w = (Raise e, {| os := o2; log := log w ++ prelude |}))
  /\
  (forall e o1,
      makedirs P (os w) output_path true = (Some e, o1) ->
      is_Exception e = false ->
      download w = (Raise e, {| os := o1; log := log w |})).
Proof.
  intros cmd prelude download. subst download. repeat split.
  - intros H.
    destruct (makedirs P (os w) output_path true) as [[e|] o1] eqn:Hm.
    + rewrite (download_no_directory P _ _ _ _ w e o1 Hm) in H.
      destruct e; discriminate.
    + rewrite (download_ran P _ _ _ _ w o1 Hm) in H. fold cmd in H.
      destruct (spawn P o1 cmd) as [[rc out err | e] o2] eqn:Hs.
      * destruct (rc =? 0)%Z eqn:E; [|discriminate].
        apply Z.eqb_eq in E as ->. exists o1, out, err, o2. auto.
      * destruct e; discriminate.
  - intros (o1 & out & err & o2 & Hm & Hs).
    rewrite (download_ran P _ _ _ _ w o1 Hm). fold cmd. now rewrite Hs.
  - intros o1 rc out err o2 Hm Hs Hrc.
    rewrite (download_ran P _ _ _ _ w o1 Hm). fold cmd. rewrite Hs.
    apply Z.eqb_neq in Hrc. now rewrite Hrc.
  - intros o1 e o2 Hm Hs He.
    rewrite (download_ran P _ _ _ _ w o1 Hm). fold cmd. rewrite Hs.
    destruct e; try discriminate; reflexivity.
  - intros e o1 Hm He.
    rewrite (download_no_directory P _ _ _ _ w e o1 Hm).
    destruct e; try discriminate; reflexivity.
  - intros o1 e o2 Hm Hs He.
    rewrite (download_ran P _ _ _ _ w o1 Hm). fold cmd. rewrite Hs.
    destruct e; try discriminate; reflexivity.
  - intros e o1 Hm He.
    rewrite (download_no_directory P _ _ _ _ w e o1 Hm).
    destruct e; try discriminate; reflexivity.
Qed.

Lemma download_video_outcome_witness :
  let Q := Demo.platform (Demo.tool 3 [] []) Demo.parse_title_only in
  download_video Q Demo.video (u "downloads") (u "best") false Demo.start =
  (Ok false,
   {| os := [u "downloads"];
      log := download_prelude Demo.video (u "downloads") (u "best") false
             ++ [Printed (u "[!] Download error: "
                          ++ cpe_str Q 3 (download_cmd Demo.video (u "downloads")
                                                       (u "best") false))] |}).
Proof.
  intros Q.
  refine (proj1 (proj2 (download_video_outcome Q Demo.video (u "downloads")
                          (u "best") false Demo.start))
                [u "downloads"] 3%Z [] [] [u "downloads"] _ _ _).
  - reflexivity.
  - reflexivity.
  - discriminate.
Defined.

(** C8.  The directory is made before the tool starts: when the creation
    returns, the directory is there in the state the tool is started in
    and the creation comes first in the log; when the creation fails,
    the tool is not started.  Making a directory that is already there
    does not fail and changes nothing: a second creation after a first
    one succeeds, and a download into a directory that is already there
    goes on to start the tool. *)
Theorem output_directory_first (P : Platform) (HC : makedirs_contract P)
  (url output_path format_spec : pystr) (audio_only : bool) (w : World (OS P)) :
  let cmd := download_cmd url output_path format_spec audio_only in
  let prelude := download_prelude url output_path format_spec audio_only in
  let after := snd (download_video P url output_path format_spec audio_only w) in
  (forall o1,
      makedirs P (os w) output_path true = (None, o1) ->
      isdir P o1 output_path = true /\
      os after = snd (spawn P o1 cmd) /\
      exists rest, log after = log w ++ prelude ++ rest)
  /\
  (forall e o1,
      makedirs P (os w) output_path true = (Some e, o1) ->
      spawned (log after) = spawned (log w))
  /\
  (isdir P (os w) output_path = true ->
   os_makedirs P output_path true w =
   (Ok tt, {| os := os w; log := log w ++ [MadeDirs output_path] |}))
  /\
  (forall w1,
      os_makedirs P output_path true w = (Ok tt, w1) ->
      os_makedirs P output_path true w1 =
      (Ok tt, {| os := os w1; log := log w1 ++ [MadeDirs output_path] |}))
  /\
  (isdir P (os w) output_path = true ->
   exists rest, log after = log w ++ prelude ++ rest).
Proof.
  intros cmd prelude after. subst after.
  assert (Hexist : forall v : World (OS P),
             isdir P (os v) output_path = true ->
             os_makedirs P output_path true v =
             (Ok tt, {| os := os v; log := log v ++ [MadeDirs output_path] |})).
  { intros v Hd. unfold os_makedirs.
    now rewrite (makedirs_exist_ok P HC _ _ Hd). }
  assert (Hrun : forall o1,
             makedirs P (os w) output_path true = (None, o1) ->
             exists rest,
               log (snd (download_video P url output_path format_spec
                                        audio_only w)) =
               log w ++ prelude ++ rest).
  { intros o1 Hm. rewrite (download_ran P _ _ _ _ w o1 Hm). fold cmd prelude.
    destruct (spawn P o1 cmd) as [[rc out err | e] o2].
    - destruct (rc =? 0)%Z; eexists; reflexivity.
    - destruct e; cbn [is_Exception snd log];
        solve [ eexists; reflexivity
              | exists []; now rewrite app_nil_r ]. }
  split; [|split; [|split; [|split]]].
  - intros o1 Hm. split; [|split].
    + exact (makedirs_creates P HC _ _ _ _ Hm).
    + rewrite (download_ran P _ _ _ _ w o1 Hm). fold cmd.
      destruct (spawn P o1 cmd) as [[rc out err | e] o2].
      * destruct (rc =? 0)%Z; reflexivity.
      * destruct e; reflexivity.
    + exact (Hrun o1 Hm).
  - intros e o1 Hm. rewrite (download_no_directory P _ _ _ _ w e o1 Hm).
    destruct e; cbn [is_Exception snd log]; unfold spawned;
      rewrite ?flat_map_app; cbn [flat_map]; now rewrite ?app_nil_r.
  - apply Hexist.
  - intros w1 H1. apply Hexist. unfold os_makedirs in H1.
    destruct (makedirs P (os w) output_path true) as [[e|] o1] eqn:Hm;
      [discriminate|].
    injection H1 as <-. exact (makedirs_creates P HC _ _ _ _ Hm).
  - intros Hd. exact (Hrun _ (makedirs_exist_ok P HC _ _ Hd)).
Qed.

Lemma pystr_eqb_refl a : pystr_eqb a a = true.
Proof. now apply pystr_eqb_eq. Qed.

(** The small platform keeps the promise of [os.makedirs]. *)
Lemma demo_makedirs_contract respond parse :
  makedirs_contract (Demo.platform respond parse).
Proof.
  split.
  - intros o path exist_ok o'. cbn.
    destruct (existsb (pystr_eqb path) o) eqn:E.
    + destruct exist_ok; [|discriminate]. now intros [= <-].
    + destruct path as [|c path]; [discriminate|].
      intros [= <-]. cbn [existsb]. now rewrite pystr_eqb_refl.
  - intros o path. cbn. now intros ->.
Qed.

Lemma output_directory_first_witness :
  let Q := Demo.platform (Demo.tool 0 [] []) Demo.parse_title_only in
  let there := {| os := [u "downloads"]; log := [] |} in
  makedirs_contract Q /\
  (isdir Q [u "downloads"] (u "downloads") = true /\
   os_makedirs Q (u "downloads") true there =
   (Ok tt, {| os := [u "downloads"]; log := [MadeDirs (u "downloads")] |})).
Proof.
  intros Q there.
  pose proof (demo_makedirs_contract (Demo.tool 0 [] []) Demo.parse_title_only)
    as HC.
  split; [exact HC|]. split; [reflexivity|].
  refine (proj1 (proj2 (proj2 (output_directory_first Q HC Demo.video
                                 (u "downloads") (u "best") false there))) _).
  reflexivity.
Defined.

(** ** The audio-only argument list *)

(** C4, as the specification words it, does not hold for every format
    expression: asked for the format [mp3], the audio-only argument list
    has the caller's expression in it, as the fixed target encoding. *)
Lemma audio_args_as_specified_fails :
  ~ audio_args_as_specified (u "https://youtu.be/abc") (u "downloads") (u "mp3").
Proof.
  unfold audio_args_as_specified. intros (_ & _ & Hin & _ & Hout).
  exact (Hout Hin).
Qed.

(** C4, amended.  With audio-only, the argument list has the
    audio-extraction flag, the target encoding mp3 and the audio
    selector, and it is the same list whatever the format expression of
    the caller: the expression is in the list only when it is equal to
    one of the arguments the list has anyway. *)
Theorem audio_args_ignore_format (url output_path format_spec : pystr) :
  let cmd := download_cmd url output_path format_spec true in
  let anyway :=
    [u "yt-dlp"; u "--output"; output_path ++ u "/%(title)s.%(ext)s";
     u "--no-playlist"; u "--progress";
     u "--extract-audio"; u "--audio-format"; u "mp3";
     u "--format"; u "bestaudio[ext=m4a]/bestaudio[ext=mp3]/bestaudio";
     url] in
  cmd = anyway /\
  In (u "--extract-audio") cmd /\ In (u "--audio-format") cmd /\
  In (u "mp3") cmd /\ In audio_selector cmd /\
  (forall other, download_cmd url output_path other true = cmd) /\
  (In format_spec cmd <-> In format_spec anyway).
Proof.
  intros cmd anyway.
  assert (E : cmd = anyway) by reflexivity.
  split; [exact E|]. rewrite E. unfold anyway.
  repeat split; try (intros H; exact H); cbn [In]; tauto.
Qed.

(** ** What an action may start *)

Section Confined.

Context {S : Type}.
Variable allowed : list (list pystr).
Variable dirs : bool.

Lemma confined_ret {A} (a : A) : confined (S := S) allowed dirs (ret a).
Proof.
  intros w. exists []. cbn. rewrite app_nil_r.
  repeat split; auto; intros c [].
Qed.

Lemma confined_raise {A} e : confined (S := S) (A := A) allowed dirs (raise e).
Proof.
  intros w. exists []. cbn. rewrite app_nil_r.
  repeat split; auto; intros c [].
Qed.

Lemma confined_lift {A} (r : result A) : confined (S := S) allowed dirs (lift r).
Proof.
  intros w. exists []. cbn. rewrite app_nil_r.
  repeat split; auto; intros c [].
Qed.

Lemma confined_print line : confined (S := S) allowed dirs (print line).
Proof.
  intros w. exists [Printed line]. cbn. repeat split; auto; intros c [].
Qed.

Lemma confined_app (evs1 evs2 : list event) :
  (forall c, In c (spawned evs1) -> In c allowed) ->
  (dirs = false -> made_dirs evs1 = []) ->
  (forall c, In c (spawned evs2) -> In c allowed) ->
  (dirs = false -> made_dirs evs2 = []) ->
  (forall c, In c (spawned (evs1 ++ evs2)) -> In c allowed) /\
  (dirs = false -> made_dirs (evs1 ++ evs2) = []).
Proof.
  intros S1 D1 S2 D2. unfold spawned, made_dirs in *. split.
  - intros c. rewrite flat_map_app, in_app_iff. intros [H | H]; auto.
  - intros Hd. rewrite flat_map_app. now rewrite D1, D2.
Qed.

Lemma confined_bind {A B} (m : M S A) (k : A -> M S B) :
  confined allowed dirs m -> (forall a, confined allowed dirs (k a)) ->
  confined allowed dirs (bind m k).
Proof.
  intros Hm Hk w. destruct (Hm w) as (evs1 & L1 & S1 & D1).
  unfold bind. destruct (m w) as [[a | e] w1]; cbn [snd] in *.
  - destruct (Hk a w1) as (evs2 & L2 & S2 & D2).
    exists (evs1 ++ evs2). rewrite L2, L1, app_assoc.
    split; [reflexivity | now apply confined_app].
  - exists evs1. auto.
Qed.

Lemma confined_try {A} (body : M S A) handler :
  confined allowed dirs body ->
  (forall e h, handler e = Some h -> confined allowed dirs h) ->
  confined allowed dirs (try_except body handler).
Proof.
  intros Hb Hh w. destruct (Hb w) as (evs1 & L1 & S1 & D1).
  unfold try_except. destruct (body w) as [[a | e] w1]; cbn [snd] in *.
  - exists evs1. auto.
  - destruct (handler e) as [h|] eqn:E.
    + destruct (Hh e h E w1) as (evs2 & L2 & S2 & D2).
      exists (evs1 ++ evs2). rewrite L2, L1, app_assoc.
      split; [reflexivity | now apply confined_app].
    + exists evs1. auto.
Qed.

(** An action that starts with the events [pre] still does so when more
    is done after it. *)
Lemma bind_after {A B} (m : M S A) (k : A -> M S B) w pre :
  (exists evs, log (snd (m w)) = log w ++ pre ++ evs) ->
  (forall a, confined allowed dirs (k a)) ->
  exists evs, log (snd (bind m k w)) = log w ++ pre ++ evs.
Proof.
  intros (evs1 & L1) Hk. unfold bind.
  destruct (m w) as [[a | e] w1]; cbn [snd] in *.
  - destruct (Hk a w1) as (evs2 & L2 & _).
    exists (evs1 ++ evs2). now rewrite L2, L1, <- !app_assoc.
  - exists evs1. exact L1.
Qed.

Lemma try_after {A} (body : M S A) handler w pre :
  (exists evs, log (snd (body w)) = log w ++ pre ++ evs) ->
  (forall e h, handler e = Some h -> confined allowed dirs h) ->
  exists evs, log (snd (try_except body handler w)) = log w ++ pre ++ evs.
Proof.
  intros (evs1 & L1) Hh. unfold try_except.
  destruct (body w) as [[a | e] w1]; cbn [snd] in *.
  - exists evs1. exact L1.
  - destruct (handler e) as [h|] eqn:E.
    + destruct (Hh e h E w1) as (evs2 & L2 & _).
      exists (evs1 ++ evs2). now rewrite L2, L1, <- !app_assoc.
    + exists evs1. exact L1.
Qed.

End Confined.

Ltac confine :=
  repeat (intros;
          match goal with
          | |- confined _ _ (bind _ _) => apply confined_bind
          | |- confined _ _ (try_except _ _) => apply confined_try
          | |- confined _ _ (print _) => apply confined_print
          | |- confined _ _ (ret _) => apply confined_ret
          | |- confined _ _ (raise _) => apply confined_raise
          | |- confined _ _ (sys_exit _) => apply confined_raise
          | |- confined _ _ (lift _) => apply confined_lift
          | |- confined _ _ (if ?b then _ else _) => destruct b
          | H : Some _ = Some _ |- _ => injection H as <-
          | H : None = Some _ |- _ => discriminate H
          end).

Section Precedence.

Variable P : Platform.
Variable allowed : list (list pystr).

Local Abbreviation W := (World (OS P)).

Lemma confined_run_captured cmd dirs :
  In cmd allowed -> confined allowed dirs (run_captured P cmd).
Proof.
  intros Hin w. exists [Spawned cmd]. unfold run_captured.
  destruct (spawn P (os w) cmd) as [[rc out err | e] o'].
  - destruct (rc =? 0)%Z; cbn; intuition (subst; auto).
  - cbn. intuition (subst; auto).
Qed.

Lemma confined_check :
  In version_cmd allowed -> confined allowed false (check_yt_dlp_installed P).
Proof.
  intros Hin. unfold check_yt_dlp_installed. confine.
  - now apply confined_run_captured.
  - destruct e; confine.
Qed.

Lemma confined_get_video_info url :
  In (info_cmd url) allowed -> confined allowed false (get_video_info P url).
Proof.
  intros Hin. unfold get_video_info. confine.
  - now apply confined_run_captured.
  - destruct e; confine.
Qed.

Lemma confined_list_formats url :
  In (formats_cmd url) allowed -> confined allowed false (list_formats P url).
Proof.
  intros Hin. unfold list_formats. confine.
  - now apply confined_run_captured.
  - destruct e; confine.
Qed.

Lemma confined_show_info v : confined (S := OS P) allowed false (show_info P v).
Proof. unfold show_info. confine. Qed.

Lemma confined_top_handler e h :
  top_handler P e = Some h -> confined allowed false h.
Proof. unfold top_handler. destruct e; cbn [is_Exception]; confine. Qed.

Lemma get_video_info_spawns url (w : W) :
  exists evs,
    log (snd (get_video_info P url w)) = log w ++ [Spawned (info_cmd url)] ++ evs.
Proof.
  unfold get_video_info. eapply try_after with (allowed := []) (dirs := false).
  - eapply bind_after with (allowed := []) (dirs := false).
    + exists []. unfold run_captured.
      destruct (spawn P (os w) (info_cmd url)) as [[rc out err | e] o'];
        [destruct (rc =? 0)%Z|]; reflexivity.
    + confine.
  - intros e h. destruct e; confine.
Qed.

End Precedence.

Section Actions.

Variable P : Platform.
Variable args : Args.

Lemma main_info_confined :
  arg_info args = true ->
  confined [version_cmd; info_cmd (arg_url args)] false (main P args).
Proof.
  intros Hi. unfold main, dispatch. rewrite Hi. confine.
  - apply confined_check. now left.
  - apply confined_get_video_info. right. now left.
  - apply confined_show_info.
  - eapply confined_top_handler; eassumption.
Qed.

Lemma main_formats_confined :
  arg_info args = false -> arg_list_formats args = true ->
  confined [version_cmd; formats_cmd (arg_url args)] false (main P args).
Proof.
  intros Hi Hl. unfold main, dispatch. rewrite Hi, Hl. confine.
  - apply confined_check. now left.
  - apply confined_list_formats. right. now left.
  - eapply confined_top_handler; eassumption.
Qed.

Lemma main_info_queries (w : World (OS P)) out0 err0 o1 :
  arg_info args = true ->
  spawn P (os w) version_cmd = (Exited 0 out0 err0, o1) ->
  validate_youtube_url P (arg_url args) = true ->
  exists evs,
    log (snd (main P args w)) =
    log w ++ [Spawned version_cmd; version_line out0;
              Spawned (info_cmd (arg_url args))] ++ evs.
Proof.
  intros Hi H0 Hv.
  rewrite (main_dispatch P args _ _ (check_installed P w _ _ _ H0) Hv).
  unfold dispatch. rewrite Hi.
  set (w1 := {| os := o1; log := log w ++ [Spawned version_cmd; version_line out0] |}).
  assert (H : exists evs,
             log (snd (try_except
                         (info <- get_video_info P (arg_url args) ;;
                          (if py_truthy info then show_info P info else ret tt) ;;
                          ret tt)
                         (top_handler P) w1)) =
             log w1 ++ [Spawned (info_cmd (arg_url args))] ++ evs).
  { eapply try_after with (allowed := []) (dirs := false).
    - eapply bind_after with (allowed := []) (dirs := false).
      + apply get_video_info_spawns.
      + confine. apply confined_show_info.
    - intros e h. apply confined_top_handler. }
  destruct H as (evs & H). exists evs. rewrite H. subst w1. cbn [log].
  now rewrite <- !app_assoc.
Qed.

End Actions.

Section InfoRuns.

Variable P : Platform.
Variable args : Args.
Variable w : World (OS P).
Variables out0 err0 out err : pystr.
Variables o1 o2 : OS P.

Hypothesis Hinfo : arg_info args = true.
Hypothesis Hvalid : validate_youtube_url P (arg_url args) = true.
Hypothesis Hprobe : spawn P (os w) version_cmd = (Exited 0 out0 err0, o1).
Hypothesis Hquery :
  spawn P o1 (info_cmd (arg_url args)) = (Exited 0 out err, o2).

Local Abbreviation queried :=
  {| os := o2;
     log := log w ++ [Spawned version_cmd; version_line out0;
                      Spawned (info_cmd (arg_url args))] |}.

(** After a query that gave a value Python takes as true, the run is the
    display of that value and a return, under the handlers of [main]. *)
Lemma main_info_displays v :
  json_loads P out = Ok v ->
  py_truthy v = true ->
  main P args w =
  try_except (show_info P v ;; ret tt) (top_handler P) queried.
Proof.
  intros Hj Ht.
  rewrite (main_dispatch P args _ _ (check_installed P w _ _ _ Hprobe) Hvalid).
  assert (E : dispatch P args
                {| os := o1;
                   log := log w ++ [Spawned version_cmd; version_line out0] |} =
              (show_info P v ;; ret tt) queried).
  { unfold dispatch. rewrite Hinfo. unfold bind at 1.
    rewrite (get_video_info_parsed P _ {| os := o1; log := _ |} out err o2 _
               Hquery Hj).
    cbv beta iota. cbn [os log]. rewrite Ht. now rewrite <- app_assoc. }
  unfold try_except. now rewrite E.
Qed.

(** With an integer view count the display is complete and [main]
    returns. *)
Lemma main_info_returns items n :
  json_loads P out = Ok (PDict items) ->
  lookup (u "view_count") items = Some (PInt n) ->
  main P args w =
  (Ok tt,
   {| os := o2;
      log := log w ++
        [Spawned version_cmd; version_line out0;
         Spawned (info_cmd (arg_url args));
         Printed (u "[*] Video Title: "
                  ++ py_str P (field_or_unknown items (u "title")));
         Printed (u "[*] Duration: "
                  ++ py_str P (field_or_unknown items (u "duration"))
                  ++ u " seconds");
         Printed (u "[*] Uploader: "
                  ++ py_str P (field_or_unknown items (u "uploader")));
         Printed (u "[*] View Count: " ++ grouped_Z n);
         Printed (u "[*] Upload Date: "
                  ++ py_str P (field_or_unknown items (u "upload_date")))] |}).
Proof.
  intros Hj Hl.
  assert (Ht : py_truthy (PDict items) = true).
  { destruct items; [discriminate | reflexivity]. }
  rewrite (main_info_displays _ Hj Ht). unfold try_except, bind.
  rewrite (show_info_complete P items n _ Hl). cbn [os log ret].
  unfold ret. now rewrite <- !app_assoc.
Qed.

End InfoRuns.

(** C10.  With [--info], whatever the other options say ([--list-formats]
    and [--audio] included), the program starts no command but the
    version probe and the metadata query and makes no directory: the
    format listing and the download are never started.  When the probe
    succeeds and the URL is valid, the metadata query is started; when
    it gives a value Python takes as true, the run is the display of that
    value followed by the return of [main]; and for a mapping with an
    integer view count the five lines are printed and [main] returns
    normally, with nothing after them.  Without [--info] and with
    [--list-formats], the program starts no command but the probe and
    the format listing and makes no directory: no download. *)
Theorem info_takes_precedence (P : Platform) (args : Args) :
  let url := arg_url args in
  (arg_info args = true ->
   confined [version_cmd; info_cmd url] false (main P args))
  /\
  (arg_info args = true ->
   forall (w : World (OS P)) out0 err0 o1,
     spawn P (os w) version_cmd = (Exited 0 out0 err0, o1) ->
     validate_youtube_url P url = true ->
     exists evs,
       log (snd (main P args w)) =
       log w ++ [Spawned version_cmd; version_line out0; Spawned (info_cmd url)]
             ++ evs)
  /\
  (arg_info args = false -> arg_list_formats args = true ->
   confined [version_cmd; formats_cmd url] false (main P args))
  /\
  ~ In (formats_cmd url) [version_cmd; info_cmd url]
  /\
  (forall output_path format_spec audio_only,
      ~ In (download_cmd url output_path format_spec audio_only)
           [version_cmd; info_cmd url; formats_cmd url])
  /\
  (arg_info args = true ->
   forall (w : World (OS P)) out0 err0 o1 out err o2 v,
     validate_youtube_url P url = true ->
     spawn P (os w) version_cmd = (Exited 0 out0 err0, o1) ->
     spawn P o1 (info_cmd url) = (Exited 0 out err, o2) ->
     json_loads P out = Ok v ->
     py_truthy v = true ->
     main P args w =
     try_except (show_info P v ;; ret tt) (top_handler P)
       {| os := o2;
          log := log w ++ [Spawned version_cmd; version_line out0;
                           Spawned (info_cmd url)] |})
  /\
  (arg_info args = true ->
   forall (w : World (OS P)) out0 err0 o1 out err o2 items n,
     validate_youtube_url P url = true ->
     spawn P (os w) version_cmd = (Exited 0 out0 err0, o1) ->
     spawn P o1 (info_cmd url) = (Exited 0 out err, o2) ->
     json_loads P out = Ok (PDict items) ->
     lookup (u "view_count") items = Some (PInt n) ->
     main P args w =
     (Ok tt,
      {| os := o2;
         log := log w ++
           [Spawned version_cmd; version_line out0; Spawned (info_cmd url);
            Printed (u "[*] Video Title: "
                     ++ py_str P (field_or_unknown items (u "title")));
            Printed (u "[*] Duration: "
                     ++ py_str P (field_or_unknown items (u "duration"))
                     ++ u " seconds");
            Printed (u "[*] Uploader: "
                     ++ py_str P (field_or_unknown items (u "uploader")));
            Printed (u "[*] View Count: " ++ grouped_Z n);
            Printed (u "[*] Upload Date: "
                     ++ py_str P (field_or_unknown items (u "upload_date")))] |})).
Proof.
  intros url.
  split; [|split; [|split; [|split; [|split; [|split]]]]].
  - apply main_info_confined.
  - intros Hi w out0 err0 o1. now apply main_info_queries.
  - apply main_formats_confined.
  - intros [H | [H | []]].
    + apply (f_equal (@List.length _)) in H. discriminate H.
    + vm_compute in H. discriminate H.
  - intros output_path format_spec audio_only [H | [H | [H | []]]];
      apply (f_equal (@List.length _)) in H; destruct audio_only; discriminate H.
  - intros Hi w out0 err0 o1 out err o2 v Hv H0 H1 Hj Ht.
    exact (main_info_displays P args w out0 err0 out err o1 o2 Hi Hv H0 H1
             v Hj Ht).
  - intros Hi w out0 err0 o1 out err o2 items n Hv H0 H1 Hj Hl.
    exact (main_info_returns P args w out0 err0 out err o1 o2 Hi Hv H0 H1
             items n Hj Hl).
Qed.

Lemma info_takes_precedence_witness :
  let Q := Demo.platform (Demo.tool 0 (u "{...}") [])
                         (Demo.parse_as Demo.complete) in
  main Q (Demo.args true true true) Demo.start =
  (Ok tt,
   {| os := [];
      log := [Spawned version_cmd; version_line (u "2024.01.01");
              Spawned (info_cmd Demo.video);
              Printed (u "[*] Video Title: Demo");
              Printed (u "[*] Duration: 212 seconds");
              Printed (u "[*] Uploader: Someone");
              Printed (u "[*] View Count: 1,234,567");
              Printed (u "[*] Upload Date: 20091025")] |}).
Proof.
  intros Q.
  destruct (info_takes_precedence Q (Demo.args true true true))
    as (_ & _ & _ & _ & _ & _ & H).
  refine (H _ Demo.start (u "2024.01.01") [] [] (u "{...}") [] []
            Demo.complete_items 1234567%Z _ _ _ _ _).
  - reflexivity.
  - vm_compute. reflexivity.
  - reflexivity.
  - reflexivity.
  - reflexivity.
  - reflexivity.
Defined.

(** ** More on the probe and the first checks of [main] *)

(** X1.  The probe reports the tool as installed exactly when the
    version command exits with status zero. *)
Theorem check_returns_true_iff (P : Platform) (w : World (OS P)) :
  fst (check_yt_dlp_installed P w) = Ok true <->
  exists out err o', spawn P (os w) version_cmd = (Exited 0 out err, o').
Proof.
  split.
  - unfold check_yt_dlp_installed, try_except, bind, run_captured.
    destruct (spawn P (os w) version_cmd) as [[rc out err | e] o'] eqn:Hs.
    + destruct (rc =? 0)%Z eqn:E.
      * apply Z.eqb_eq in E as ->. eauto.
      * cbn. discriminate.
    + destruct e; cbn; discriminate.
  - intros (out & err & o' & Hs). now rewrite (check_installed P w _ _ _ Hs).
Qed.

(** X2.  An exception of the probe that is neither [CalledProcessError]
    nor [FileNotFoundError] (the interrupt of the user, a permission
    error) is not caught: it leaves [main] right after the probe, and
    neither the absence notice nor the cancel notice is printed. *)
Theorem probe_exception_uncaught (P : Platform) (args : Args)
  (w : World (OS P)) (e : exn) (o' : OS P) :
  spawn P (os w) version_cmd = (Failed e, o') ->
  match e with
  | CalledProcessError _ _ _ | FileNotFoundError _ => False
  | _ => True
  end ->
  main P args w =
  (Raise e, {| os := o'; log := log w ++ [Spawned version_cmd] |}).
Proof.
  intros Hs He. unfold main, bind at 1, bind at 1.
  unfold check_yt_dlp_installed, try_except, bind at 1.
  rewrite (run_captured_failed P _ _ _ _ Hs).
  destruct e; try contradiction; reflexivity.
Qed.

Lemma probe_exception_uncaught_witness :
  main (Demo.platform (fun _ => Failed KeyboardInterrupt) Demo.parse_title_only)
       (Demo.args false false false) Demo.start =
  (Raise KeyboardInterrupt, {| os := []; log := [Spawned version_cmd] |}).
Proof.
  refine (probe_exception_uncaught
            (Demo.platform (fun _ => Failed KeyboardInterrupt)
                           Demo.parse_title_only)
            (Demo.args false false false) Demo.start KeyboardInterrupt [] _ _).
  - reflexivity.
  - exact I.
Defined.

(** X3.  With the tool installed, a URL of none of the recognized shapes
    ends the run with status 1 after one diagnostic line that repeats the
    URL; no command but the probe is started. *)
Theorem invalid_url_exits (P : Platform) (args : Args)
  (w : World (OS P)) (out0 err0 : pystr) (o1 : OS P) :
  spawn P (os w) version_cmd = (Exited 0 out0 err0, o1) ->
  ~ recognized_shape P (arg_url args) ->
  script P args w =
  (ExitStatus 1,
   {| os := o1;
      log := log w ++
        [Spawned version_cmd; version_line out0;
         Printed (u "[!] Error: Invalid YouTube URL: " ++ arg_url args)] |}).
Proof.
  intros H0 Hn.
  assert (Hv : validate_youtube_url P (arg_url args) = false).
  { destruct (validate_youtube_url P (arg_url args)) eqn:E; [|reflexivity].
    apply validate_iff_shape in E. contradiction. }
  unfold script.
  rewrite (main_invalid P args _ _ (check_installed P w _ _ _ H0) Hv).
  cbn [os log]. now rewrite <- app_assoc.
Qed.

Lemma invalid_url_exits_witness :
  let Q := Demo.platform (Demo.tool 0 [] []) Demo.parse_title_only in
  let bad := {| arg_url := u "https://vimeo.com/12345";
                arg_output := u "downloads"; arg_format := u "best";
                arg_audio := false; arg_list_formats := false;
                arg_info := false |} in
  script Q bad Demo.start =
  (ExitStatus 1,
   {| os := [];
      log := [Spawned version_cmd; version_line (u "2024.01.01");
              Printed (u "[!] Error: Invalid YouTube URL: https://vimeo.com/12345")] |}).
Proof.
  intros Q bad.
  refine (invalid_url_exits Q bad Demo.start (u "2024.01.01") [] [] _ _).
  - reflexivity.
  - intros H. apply validate_iff_shape in H. vm_compute in H. discriminate.
Defined.

(** ** The three actions, to the exit status *)

Section Branches.

Variable P : Platform.

Lemma list_formats_cases url (o : OS P) (l : list event) :
  list_formats P url {| os := o; log := l |} =
  let header := Printed (u "[*] Getting available formats for: " ++ url) in
  match spawn P o (formats_cmd url) with
  | (Exited rc out err, o') =>
      if (rc =? 0)%Z
      then (Ok true,
            {| os := o';
               log := l ++ [header; Spawned (formats_cmd url); Printed out] |})
      else (Ok false,
            {| os := o';
               log := l ++ [header; Spawned (formats_cmd url);
                            Printed (u "[!] Error listing formats: " ++ err)] |})
  | (Failed e, o') =>
      match e with
      | CalledProcessError _ _ stderr =>
          (Ok false,
           {| os := o';
              log := l ++ [header; Spawned (formats_cmd url);
                           Printed (u "[!] Error listing formats: "
                                    ++ match stderr with
                                       | Some t => t
                                       | None => u "None"
                                       end)] |})
      | _ => (Raise e,
              {| os := o'; log := l ++ [header; Spawned (formats_cmd url)] |})
      end
  end.
Proof.
  unfold list_formats, try_except, bind at 1, print at 1.
  unfold bind at 1, run_captured. cbn [os log].
  destruct (spawn P o (formats_cmd url)) as [[rc out err | e] o'].
  - destruct (rc =? 0)%Z; unfold bind, print, ret; cbn [os log fst];
      now rewrite <- !app_assoc.
  - destruct e; unfold bind, print, ret; cbn [os log];
      now rewrite <- !app_assoc.
Qed.

Lemma get_video_info_raises url (o : OS P) (l : list event) e o' :
  spawn P o (info_cmd url) = (Failed e, o') ->
  match e with
  | CalledProcessError _ _ _ | JSONDecodeError _ => False
  | _ => True
  end ->
  get_video_info P url {| os := o; log := l |} =
  (Raise e, {| os := o'; log := l ++ [Spawned (info_cmd url)] |}).
Proof.
  intros Hs He. unfold get_video_info, try_except, bind, run_captured.
  cbn [os log]. rewrite Hs. destruct e; try contradiction; reflexivity.
Qed.

End Branches.

(** X4.  With [--list-formats] (and no [--info]), a valid URL and the
    tool installed: when the listing command exits with zero its output
    is printed as it is and the run ends with status 0; when it exits
    with another status its error text is printed and the run ends with
    status 1; when starting it raises another exception, [main] prints
    the exception after the prefix of errors and the run ends with
    status 1. *)
Theorem list_formats_exit_status (P : Platform) (args : Args)
  (w : World (OS P)) (out0 err0 : pystr) (o1 : OS P) :
  arg_info args = false -> arg_list_formats args = true ->
  validate_youtube_url P (arg_url args) = true ->
  spawn P (os w) version_cmd = (Exited 0 out0 err0, o1) ->
  let url := arg_url args in
  let before :=
    log w ++ [Spawned version_cmd; version_line out0;
              Printed (u "[*] Getting available formats for: " ++ url);
              Spawned (formats_cmd url)] in
  (forall out err o2,
      spawn P o1 (formats_cmd url) = (Exited 0 out err, o2) ->
      script P args w =
      (ExitStatus 0, {| os := o2; log := before ++ [Printed out] |}))
  /\
  (forall rc out err o2,
      rc <> 0%Z ->
      spawn P o1 (formats_cmd url) = (Exited rc out err, o2) ->
      script P args w =
      (ExitStatus 1,
       {| os := o2;
          log := before ++ [Printed (u "[!] Error listing formats: " ++ err)] |}))
  /\
  (forall e o2,
      spawn P o1 (formats_cmd url) = (Failed e, o2) ->
      is_Exception e = true ->
      match e with CalledProcessError _ _ _ => False | _ => True end ->
      script P args w =
      (ExitStatus 1,
       {| os := o2;
          log := before ++ [Printed (u "[!] Error: " ++ exn_str P e)] |})).
Proof.
  intros Hi Hl Hv H0 url before. subst url before.
  pose proof (main_dispatch P args _ _ (check_installed P w _ _ _ H0) Hv) as Hm.
  assert (Hrun : script P args w =
                 let (r, w') :=
                   try_except
                     (bind (bind (list_formats P (arg_url args))
                                 (fun ok => if negb ok then sys_exit 1 else ret tt))
                           (fun _ => ret tt))
                     (top_handler P)
                     {| os := o1;
                        log := log w ++ [Spawned version_cmd; version_line out0] |} in
                 match r with
                 | Ok _ => (ExitStatus 0, w')
                 | Raise (SystemExit n) => (ExitStatus n, w')
                 | Raise KeyboardInterrupt => (KilledBySigint, w')
                 | Raise _ => (ExitStatus 1, w')
                 end).
  { unfold script. rewrite Hm. unfold dispatch. now rewrite Hi, Hl. }
  rewrite Hrun. unfold try_except, bind. rewrite list_formats_cases. cbv zeta.
  split; [|split].
  - intros out err o2 Hs. rewrite Hs. cbn. now rewrite <- !app_assoc.
  - intros rc out err o2 Hrc Hs. rewrite Hs. apply Z.eqb_neq in Hrc.
    rewrite Hrc. cbn. now rewrite <- !app_assoc.
  - intros e o2 Hs He Hc. rewrite Hs.
    destruct e; try contradiction; try discriminate; cbn;
      now rewrite <- !app_assoc.
Qed.

Lemma list_formats_exit_status_witness :
  let Q := Demo.platform (Demo.tool 1 [] (u "ERROR: no such video"))
                         Demo.parse_title_only in
  script Q (Demo.args false true false) Demo.start =
  (ExitStatus 1,
   {| os := [];
      log := [Spawned version_cmd; version_line (u "2024.01.01");
              Printed (u "[*] Getting available formats for: " ++ Demo.video);
              Spawned (formats_cmd Demo.video);
              Printed (u "[!] Error listing formats: ERROR: no such video")] |}).
Proof.
  intros Q.
  refine (proj1 (proj2 (list_formats_exit_status Q (Demo.args false true false)
                          Demo.start (u "2024.01.01") [] [] _ _ _ _))
                1%Z [] (u "ERROR: no such video") [] _ _).
  - reflexivity.
  - reflexivity.
  - vm_compute. reflexivity.
  - reflexivity.
  - discriminate.
  - reflexivity.
Defined.

Section DownloadBranch.

Variable P : Platform.
Variable args : Args.
Variable w : World (OS P).
Variables out0 err0 : pystr.
Variable o1 : OS P.

Hypothesis Hinfo : arg_info args = false.
Hypothesis Hlist : arg_list_formats args = false.
Hypothesis Hvalid : validate_youtube_url P (arg_url args) = true.
Hypothesis Hprobe : spawn P (os w) version_cmd = (Exited 0 out0 err0, o1).

Local Abbreviation checked :=
  {| os := o1; log := log w ++ [Spawned version_cmd; version_line out0] |}.

(** The run is the download and, when it returns [False], [sys.exit(1)],
    under the handlers of [main]. *)
Lemma script_download :
  script P args w =
  let (r, w') :=
    try_except
      (bind (download_video P (arg_url args) (arg_output args)
                            (arg_format args) (arg_audio args))
            (fun success => if negb success then sys_exit 1 else ret tt))
      (top_handler P) checked in
  match r with
  | Ok _ => (ExitStatus 0, w')
  | Raise (SystemExit n) => (ExitStatus n, w')
  | Raise KeyboardInterrupt => (KilledBySigint, w')
  | Raise _ => (ExitStatus 1, w')
  end.
Proof.
  unfold script.
  rewrite (main_dispatch P args _ _ (check_installed P w _ _ _ Hprobe) Hvalid).
  unfold dispatch. now rewrite Hinfo, Hlist.
Qed.

End DownloadBranch.

(** X5.  Without [--info] and [--list-formats], with a valid URL and the
    tool installed: the run ends with status 0 when the directory could
    be made and the tool exits with zero, after the line of success; it
    ends with status 1, after the diagnostic of [download_video], when
    the tool exits with another status, when starting it raises an
    exception, or when the directory cannot be made. *)
Theorem download_exit_status (P : Platform) (args : Args)
  (w : World (OS P)) (out0 err0 : pystr) (o1 : OS P) :
  arg_info args = false -> arg_list_formats args = false ->
  validate_youtube_url P (arg_url args) = true ->
  spawn P (os w) version_cmd = (Exited 0 out0 err0, o1) ->
  let cmd := download_cmd (arg_url args) (arg_output args)
                          (arg_format args) (arg_audio args) in
  let prelude := download_prelude (arg_url args) (arg_output args)
                                  (arg_format args) (arg_audio args) in
  let before := log w ++ [Spawned version_cmd; version_line out0] in
  (forall o2 out err o3,
      makedirs P o1 (arg_output args) true = (None, o2) ->
      spawn P o2 cmd = (Exited 0 out err, o3) ->
      script P args w =
      (ExitStatus 0,
       {| os := o3;
          log := before ++ prelude
                 ++ [Printed (u "[+] Download completed successfully!")] |}))
  /\
  (forall o2 rc out err o3,
      makedirs P o1 (arg_output args) true = (None, o2) ->
      spawn P o2 cmd = (Exited rc out err, o3) ->
      rc <> 0%Z ->
      script P args w =
      (ExitStatus 1,
       {| os := o3;
          log := before ++ prelude
                 ++ [Printed (u "[!] Download error: " ++ cpe_str P rc cmd)] |}))
  /\
  (forall o2 e o3,
      makedirs P o1 (arg_output args) true = (None, o2) ->
      spawn P o2 cmd = (Failed e, o3) ->
      is_Exception e = true ->
      script P args w =
      (ExitStatus 1,
       {| os := o3;
          log := before ++ prelude ++ [Printed (download_diagnostic P e)] |}))
  /\
  (forall e o2,
      makedirs P o1 (arg_output args) true = (Some e, o2) ->
      is_Exception e = true ->
      script P args w =
      (ExitStatus 1,
       {| os := o2; log := before ++ [Printed (download_diagnostic P e)] |})).
Proof.
  intros Hi Hl Hv H0 cmd prelude before.
  rewrite (script_download P args w out0 err0 o1 Hi Hl Hv H0).
  unfold try_except, bind. split; [|split; [|split]].
  - intros o2 out err o3 Hm Hs.
    rewrite (download_ran P _ _ _ _
               {| os := o1; log := before |} o2 Hm).
    fold cmd. rewrite Hs. reflexivity.
  - intros o2 rc out err o3 Hm Hs Hrc.
    rewrite (download_ran P _ _ _ _
               {| os := o1; log := before |} o2 Hm).
    fold cmd. rewrite Hs. apply Z.eqb_neq in Hrc. rewrite Hrc. reflexivity.
  - intros o2 e o3 Hm Hs He.
    rewrite (download_ran P _ _ _ _
               {| os := o1; log := before |} o2 Hm).
    fold cmd. rewrite Hs. destruct e; try discriminate; reflexivity.
  - intros e o2 Hm He.
    rewrite (download_no_directory P _ _ _ _
               {| os := o1; log := before |} e o2 Hm).
    destruct e; try discriminate; reflexivity.
Qed.

Lemma download_exit_status_witness :
  let Q := Demo.platform (Demo.tool 0 [] []) Demo.parse_title_only in
  script Q (Demo.args false false true) Demo.start =
  (ExitStatus 0,
   {| os := [u "downloads"];
      log := [Spawned version_cmd; version_line (u "2024.01.01")]
             ++ download_prelude Demo.video (u "downloads") (u "best") true
             ++ [Printed (u "[+] Download completed successfully!")] |}).
Proof.
  intros Q.
  refine (proj1 (download_exit_status Q (Demo.args false false true)
                   Demo.start (u "2024.01.01") [] [] _ _ _ _)
                [u "downloads"] [] [] [u "downloads"] _ _).
  - reflexivity.
  - reflexivity.
  - vm_compute. reflexivity.
  - reflexivity.
  - reflexivity.
  - reflexivity.
Defined.

(** X6.  When the user interrupts the wait for the command of the
    action (the metadata query, the format listing or the download),
    no action catches the interrupt; the handler of [main] prints the
    cancel notice and the run ends with status 1. *)
Theorem interrupt_cancels (P : Platform) (args : Args)
  (w : World (OS P)) (out0 err0 : pystr) (o1 : OS P) :
  validate_youtube_url P (arg_url args) = true ->
  spawn P (os w) version_cmd = (Exited 0 out0 err0, o1) ->
  let url := arg_url args in
  let cmd := download_cmd url (arg_output args) (arg_format args)
                          (arg_audio args) in
  let prelude := download_prelude url (arg_output args) (arg_format args)
                                  (arg_audio args) in
  let before := log w ++ [Spawned version_cmd; version_line out0] in
  (arg_info args = true ->
   forall o2,
     spawn P o1 (info_cmd url) = (Failed KeyboardInterrupt, o2) ->
     script P args w =
     (ExitStatus 1,
      {| os := o2;
         log := before ++ [Spawned (info_cmd url); cancel_notice] |}))
  /\
  (arg_info args = false -> arg_list_formats args = true ->
   forall o2,
     spawn P o1 (formats_cmd url) = (Failed KeyboardInterrupt, o2) ->
     script P args w =
     (ExitStatus 1,
      {| os := o2;
         log := before
                ++ [Printed (u "[*] Getting available formats for: " ++ url);
                    Spawned (formats_cmd url); cancel_notice] |}))
  /\
  (arg_info args = false -> arg_list_formats args = false ->
   forall o2 o3,
     makedirs P o1 (arg_output args) true = (None, o2) ->
     spawn P o2 cmd = (Failed KeyboardInterrupt, o3) ->
     script P args w =
     (ExitStatus 1,
      {| os := o3; log := before ++ prelude ++ [cancel_notice] |})).
Proof.
  intros Hv H0 url cmd prelude before.
  pose proof (main_dispatch P args _ _ (check_installed P w _ _ _ H0) Hv) as Hm.
  split; [|split].
  - intros Hi o2 Hs. unfold script. rewrite Hm.
    unfold try_except, dispatch. rewrite Hi. unfold bind at 1.
    rewrite (get_video_info_raises P url o1 _ KeyboardInterrupt o2 Hs I).
    cbn. unfold cancel_notice, before. now rewrite <- !app_assoc.
  - intros Hi Hl o2 Hs. unfold script. rewrite Hm.
    unfold try_except, dispatch. rewrite Hi, Hl. unfold bind at 1, bind at 1.
    rewrite list_formats_cases. cbv zeta. fold url. rewrite Hs.
    cbn. unfold cancel_notice, before. now rewrite <- !app_assoc.
  - intros Hi Hl o2 o3 Hm' Hs.
    rewrite (script_download P args w out0 err0 o1 Hi Hl Hv H0).
    unfold try_except, bind at 1.
    rewrite (download_ran P _ _ _ _ {| os := o1; log := before |} o2 Hm').
    fold url cmd. rewrite Hs. cbn [is_Exception top_handler].
    unfold bind, print, sys_exit, raise, cancel_notice, before. cbn [os log].
    now rewrite <- !app_assoc.
Qed.

Lemma interrupt_cancels_witness :
  let Q := Demo.platform (Demo.tool_then (Failed KeyboardInterrupt))
                         Demo.parse_title_only in
  script Q (Demo.args false false false) Demo.start =
  (ExitStatus 1,
   {| os := [u "downloads"];
      log := [Spawned version_cmd; version_line (u "2024.01.01")]
             ++ download_prelude Demo.video (u "downloads") (u "best") false
             ++ [cancel_notice] |}).
Proof.
  intros Q.
  refine (proj2 (proj2 (interrupt_cancels Q (Demo.args false false false)
                          Demo.start (u "2024.01.01") [] [] _ _))
                _ _ [u "downloads"] [u "downloads"] _ _).
  - vm_compute. reflexivity.
  - reflexivity.
  - reflexivity.
  - reflexivity.
  - reflexivity.
  - reflexivity.
Defined.

(** ** The display of the metadata *)

Section Display.

Variable P : Platform.

Lemma show_info_dict items (w : World (OS P)) :
  show_info P (PDict items) w =
  let first_three :=
    [Printed (u "[*] Video Title: "
              ++ py_str P (field_or_unknown items (u "title")));
     Printed (u "[*] Duration: "
              ++ py_str P (field_or_unknown items (u "duration"))
              ++ u " seconds");
     Printed (u "[*] Uploader: "
              ++ py_str P (field_or_unknown items (u "uploader")))] in
  match format_comma P (field_or_unknown items (u "view_count")) with
  | Ok t =>
      (Ok tt,
       {| os := os w;
          log := log w ++ first_three
                 ++ [Printed (u "[*] View Count: " ++ t);
                     Printed (u "[*] Upload Date: "
                              ++ py_str P (field_or_unknown items
                                             (u "upload_date")))] |})
  | Raise e => (Raise e, {| os := os w; log := log w ++ first_three |})
  end.
Proof.
  unfold show_info, bind, lift, print, py_get. cbn [os log].
  fold (field_or_unknown items (u "view_count")).
  destruct (format_comma P (field_or_unknown items (u "view_count")));
    cbv zeta; cbv beta iota; cbn [os log]; unfold field_or_unknown;
    now rewrite <- !app_assoc.
Qed.

Lemma format_comma_number v :
  (exists t, format_comma P v = Ok t) <-> is_number v = true.
Proof.
  destruct v; cbn; split; intros H; try discriminate; eauto;
    destruct H as (t & H); discriminate.
Qed.

End Display.

(** X7.  The display of a mapping completes exactly when the mapping has
    a view count that is a number (an int, a bool or a float); then all
    five lines are printed, each other field that is missing as the
    placeholder.  In every other case (no view count, null, a text, a
    list) the exception leaves the display after the first three
    lines. *)
Theorem show_info_completes_iff (P : Platform)
  (items : list (pystr * pyval)) (w : World (OS P)) :
  let first_three :=
    [Printed (u "[*] Video Title: "
              ++ py_str P (field_or_unknown items (u "title")));
     Printed (u "[*] Duration: "
              ++ py_str P (field_or_unknown items (u "duration"))
              ++ u " seconds");
     Printed (u "[*] Uploader: "
              ++ py_str P (field_or_unknown items (u "uploader")))] in
  (fst (show_info P (PDict items) w) = Ok tt <->
   exists v, lookup (u "view_count") items = Some v /\ is_number v = true)
  /\
  (fst (show_info P (PDict items) w) = Ok tt ->
   exists t,
     show_info P (PDict items) w =
     (Ok tt,
      {| os := os w;
         log := log w ++ first_three
                ++ [Printed (u "[*] View Count: " ++ t);
                    Printed (u "[*] Upload Date: "
                             ++ py_str P (field_or_unknown items
                                            (u "upload_date")))] |}))
  /\
  (fst (show_info P (PDict items) w) <> Ok tt ->
   exists e,
     show_info P (PDict items) w =
     (Raise e, {| os := os w; log := log w ++ first_three |})).
Proof.
  intros first_three. rewrite show_info_dict. cbv zeta. fold first_three.
  split; [|split].
  - split.
    + intros H. unfold field_or_unknown in H.
      destruct (lookup (u "view_count") items) as [v|] eqn:E.
      * exists v. split; [reflexivity|]. apply format_comma_number with (P := P).
        destruct (format_comma P v); [eauto | discriminate].
      * cbn in H. discriminate.
    + intros (v & E & Hn). unfold field_or_unknown. rewrite E.
      apply format_comma_number with (P := P) in Hn as (t & ->). reflexivity.
  - destruct (format_comma P (field_or_unknown items (u "view_count")));
      [eauto | discriminate].
  - destruct (format_comma P (field_or_unknown items (u "view_count")));
      [intros H; now contradiction H | eauto].
Qed.

(** X8.  With [--info], a valid URL, the tool installed and a metadata
    mapping whose view count is an integer, the run prints the five
    lines, the count with commas between the thousands, and ends with
    status 0. *)
Theorem info_complete_exit_zero (P : Platform) (args : Args)
  (w : World (OS P)) (out0 err0 out err : pystr) (o1 o2 : OS P)
  (items : list (pystr * pyval)) (n : Z) :
  arg_info args = true ->
  validate_youtube_url P (arg_url args) = true ->
  spawn P (os w) version_cmd = (Exited 0 out0 err0, o1) ->
  spawn P o1 (info_cmd (arg_url args)) = (Exited 0 out err, o2) ->
  json_loads P out = Ok (PDict items) ->
  lookup (u "view_count") items = Some (PInt n) ->
  script P args w =
  (ExitStatus 0,
   {| os := o2;
      log := log w ++
        [Spawned version_cmd; version_line out0;
         Spawned (info_cmd (arg_url args));
         Printed (u "[*] Video Title: "
                  ++ py_str P (field_or_unknown items (u "title")));
         Printed (u "[*] Duration: "
                  ++ py_str P (field_or_unknown items (u "duration"))
                  ++ u " seconds");
         Printed (u "[*] Uploader: "
                  ++ py_str P (field_or_unknown items (u "uploader")));
         Printed (u "[*] View Count: " ++ grouped_Z n);
         Printed (u "[*] Upload Date: "
                  ++ py_str P (field_or_unknown items (u "upload_date")))] |}).
Proof.
  intros Hi Hv H0 H1 Hj Hl.
  pose proof (main_dispatch P args _ _ (check_installed P w _ _ _ H0) Hv) as Hm.
  unfold script. rewrite Hm.
  unfold try_except, dispatch, bind at 1. rewrite Hi.
  rewrite (get_video_info_parsed P _ {| os := o1; log := _ |} out err o2 _ H1 Hj).
  assert (Ht : py_truthy (PDict items) = true).
  { destruct items; [discriminate | reflexivity]. }
  rewrite Ht. unfold bind at 1.
  rewrite (show_info_complete P items n _ Hl).
  cbn. now rewrite <- !app_assoc.
Qed.

Lemma info_complete_exit_zero_witness :
  let Q := Demo.platform (Demo.tool 0 (u "{...}") [])
                         (Demo.parse_as Demo.complete) in
  script Q (Demo.args true false false) Demo.start =
  (ExitStatus 0,
   {| os := [];
      log := [Spawned version_cmd; version_line (u "2024.01.01");
              Spawned (info_cmd Demo.video);
              Printed (u "[*] Video Title: Demo");
              Printed (u "[*] Duration: 212 seconds");
              Printed (u "[*] Uploader: Someone");
              Printed (u "[*] View Count: 1,234,567");
              Printed (u "[*] Upload Date: 20091025")] |}).
Proof.
  intros Q.
  refine (info_complete_exit_zero Q (Demo.args true false false) Demo.start
            (u "2024.01.01") [] (u "{...}") [] [] []
            Demo.complete_items 1234567%Z _ _ _ _ _ _).
  - reflexivity.
  - vm_compute. reflexivity.
  - reflexivity.
  - reflexivity.
  - reflexivity.
  - reflexivity.
Defined.

Lemma show_info_completes_iff_witness :
  let Q := Demo.platform Demo.no_tool Demo.parse_title_only in
  fst (show_info Q Demo.complete Demo.start) = Ok tt /\
  exists v, lookup (u "view_count") Demo.complete_items = Some v /\
            is_number v = true.
Proof.
  intros Q.
  assert (H : fst (show_info Q Demo.complete Demo.start) = Ok tt)
    by reflexivity.
  split; [exact H|].
  exact (proj1 (proj1 (show_info_completes_iff Q Demo.complete_items
                         Demo.start)) H).
Defined.

(** X9.  With [--info], metadata that Python takes as false (null, an
    empty mapping, an empty list or text, zero) is displayed as nothing
    at all: no line is printed after the query and the run ends with
    status 0. *)
Theorem info_falsy_prints_nothing (P : Platform) (args : Args)
  (w : World (OS P)) (out0 err0 out err : pystr) (o1 o2 : OS P) (v : pyval) :
  arg_info args = true ->
  validate_youtube_url P (arg_url args) = true ->
  spawn P (os w) version_cmd = (Exited 0 out0 err0, o1) ->
  spawn P o1 (info_cmd (arg_url args)) = (Exited 0 out err, o2) ->
  json_loads P out = Ok v ->
  py_truthy v = false ->
  script P args w =
  (ExitStatus 0,
   {| os := o2;
      log := log w ++ [Spawned version_cmd; version_line out0;
                       Spawned (info_cmd (arg_url args))] |}).
Proof.
  intros Hi Hv H0 H1 Hj Hf.
  pose proof (main_dispatch P args _ _ (check_installed P w _ _ _ H0) Hv) as Hm.
  unfold script. rewrite Hm.
  unfold try_except, dispatch, bind at 1. rewrite Hi.
  rewrite (get_video_info_parsed P _ {| os := o1; log := _ |} out err o2 _ H1 Hj).
  rewrite Hf. cbn. now rewrite <- !app_assoc.
Qed.

Lemma info_falsy_prints_nothing_witness :
  let Q := Demo.platform (Demo.tool 0 (u "{}") []) (Demo.parse_as (PDict [])) in
  script Q (Demo.args true false false) Demo.start =
  (ExitStatus 0,
   {| os := [];
      log := [Spawned version_cmd; version_line (u "2024.01.01");
              Spawned (info_cmd Demo.video)] |}).
Proof.
  intros Q.
  refine (info_falsy_prints_nothing Q (Demo.args true false false) Demo.start
            (u "2024.01.01") [] (u "{}") [] [] [] (PDict []) _ _ _ _ _ _).
  - reflexivity.
  - vm_compute. reflexivity.
  - reflexivity.
  - reflexivity.
  - reflexivity.
  - reflexivity.
Defined.

(** X10.  With [--info], metadata that is not a mapping and that Python
    takes as true (a list with elements, a text, a number other than
    zero) has no [get]: no display line is printed, the handler of
    [main] prints the attribute error and the run ends with status 1. *)
Theorem info_not_a_mapping (P : Platform) (args : Args)
  (w : World (OS P)) (out0 err0 out err : pystr) (o1 o2 : OS P) (v : pyval) :
  arg_info args = true ->
  validate_youtube_url P (arg_url args) = true ->
  spawn P (os w) version_cmd = (Exited 0 out0 err0, o1) ->
  spawn P o1 (info_cmd (arg_url args)) = (Exited 0 out err, o2) ->
  json_loads P out = Ok v ->
  py_truthy v = true ->
  match v with PDict _ => False | _ => True end ->
  script P args w =
  (ExitStatus 1,
   {| os := o2;
      log := log w ++
        [Spawned version_cmd; version_line out0;
         Spawned (info_cmd (arg_url args));
         Printed (u "[!] Error: '" ++ type_name v
                  ++ u "' object has no attribute 'get'")] |}).
Proof.
  intros Hi Hv H0 H1 Hj Ht Hd.
  pose proof (main_dispatch P args _ _ (check_installed P w _ _ _ H0) Hv) as Hm.
  unfold script. rewrite Hm.
  unfold try_except, dispatch, bind at 1. rewrite Hi.
  rewrite (get_video_info_parsed P _ {| os := o1; log := _ |} out err o2 _ H1 Hj).
  rewrite Ht. unfold bind at 1, show_info, bind at 1, bind at 1, lift.
  destruct v; try contradiction; try discriminate;
    cbn; now rewrite <- !app_assoc.
Qed.

Lemma info_not_a_mapping_witness :
  let Q := Demo.platform (Demo.tool 0 (u "[1]") [])
                         (Demo.parse_as (PList [PInt 1])) in
  script Q (Demo.args true false false) Demo.start =
  (ExitStatus 1,
   {| os := [];
      log := [Spawned version_cmd; version_line (u "2024.01.01");
              Spawned (info_cmd Demo.video);
              Printed (u "[!] Error: 'list' object has no attribute 'get'")] |}).
Proof.
  intros Q.
  refine (info_not_a_mapping Q (Demo.args true false false) Demo.start
            (u "2024.01.01") [] (u "[1]") [] [] [] (PList [PInt 1])
            _ _ _ _ _ _ _).
  - reflexivity.
  - vm_compute. reflexivity.
  - reflexivity.
  - reflexivity.
  - reflexivity.
  - reflexivity.
  - exact I.
Defined.

(** ** What a whole run does to the outside *)

Section Emits.

Context {S : Type}.
Variable ok : event -> Prop.
Hypothesis ok_printed : forall line, ok (Printed line).

Lemma emits_ret {A} (a : A) : emits (S := S) ok (ret a).
Proof. intros w. exists []. cbn. now rewrite app_nil_r. Qed.

Lemma emits_raise {A} e : emits (S := S) (A := A) ok (raise e).
Proof. intros w. exists []. cbn. now rewrite app_nil_r. Qed.

Lemma emits_lift {A} (r : result A) : emits (S := S) ok (lift r).
Proof. intros w. exists []. cbn. now rewrite app_nil_r. Qed.

Lemma emits_print line : emits (S := S) ok (print line).
Proof. intros w. exists [Printed line]. cbn. auto. Qed.

Lemma emits_bind {A B} (m : M S A) (k : A -> M S B) :
  emits ok m -> (forall a, emits ok (k a)) -> emits ok (bind m k).
Proof.
  intros Hm Hk w. destruct (Hm w) as (evs1 & L1 & F1).
  unfold bind. destruct (m w) as [[a | e] w1]; cbn [snd] in *.
  - destruct (Hk a w1) as (evs2 & L2 & F2).
    exists (evs1 ++ evs2). rewrite L2, L1, app_assoc.
    split; [reflexivity | now apply Forall_app].
  - exists evs1. auto.
Qed.

Lemma emits_try {A} (body : M S A) handler :
  emits ok body ->
  (forall e h, handler e = Some h -> emits ok h) ->
  emits ok (try_except body handler).
Proof.
  intros Hb Hh w. destruct (Hb w) as (evs1 & L1 & F1).
  unfold try_except. destruct (body w) as [[a | e] w1]; cbn [snd] in *.
  - exists evs1. auto.
  - destruct (handler e) as [h|] eqn:E.
    + destruct (Hh e h E w1) as (evs2 & L2 & F2).
      exists (evs1 ++ evs2). rewrite L2, L1, app_assoc.
      split; [reflexivity | now apply Forall_app].
    + exists evs1. auto.
Qed.

(** An action that starts with the events [pre] still does so when more
    is done after it. *)
Lemma bind_starts {A B} (m : M S A) (k : A -> M S B) w pre :
  (exists evs, log (snd (m w)) = log w ++ pre ++ evs) ->
  (forall a, emits ok (k a)) ->
  exists evs, log (snd (bind m k w)) = log w ++ pre ++ evs.
Proof.
  intros (evs1 & L1) Hk. unfold bind.
  destruct (m w) as [[a | e] w1]; cbn [snd] in *.
  - destruct (Hk a w1) as (evs2 & L2 & _).
    exists (evs1 ++ evs2). now rewrite L2, L1, <- !app_assoc.
  - exists evs1. exact L1.
Qed.

End Emits.

Ltac emit :=
  repeat (intros;
          match goal with
          | |- emits _ (bind _ _) => apply emits_bind
          | |- emits _ (try_except _ _) => apply emits_try
          | |- emits _ (print _) => apply emits_print
          | |- emits _ (ret _) => apply emits_ret
          | |- emits _ (raise _) => apply emits_raise
          | |- emits _ (sys_exit _) => apply emits_raise
          | |- emits _ (lift _) => apply emits_lift
          | |- emits _ (if ?b then _ else _) => destruct b
          | H : Some _ = Some _ |- _ => injection H as <-
          | H : None = Some _ |- _ => discriminate H
          end).

Section Outside.

Variable P : Platform.
Variable ok : event -> Prop.
Hypothesis ok_printed : forall line, ok (Printed line).

Lemma emits_run_captured cmd :
  ok (Spawned cmd) -> emits ok (run_captured P cmd).
Proof.
  intros Hc w. exists [Spawned cmd]. unfold run_captured.
  destruct (spawn P (os w) cmd) as [[rc out err | e] o'].
  - destruct (rc =? 0)%Z; cbn; auto.
  - cbn. auto.
Qed.

Lemma emits_run_streamed cmd :
  ok (Spawned cmd) -> emits ok (run_streamed P cmd).
Proof.
  intros Hc w. exists [Spawned cmd]. unfold run_streamed.
  destruct (spawn P (os w) cmd) as [[rc out err | e] o'].
  - destruct (rc =? 0)%Z; cbn; auto.
  - cbn. auto.
Qed.

Lemma emits_os_makedirs path exist_ok :
  ok (MadeDirs path) -> emits ok (os_makedirs P path exist_ok).
Proof.
  intros Hd w. unfold os_makedirs.
  destruct (makedirs P (os w) path exist_ok) as [[e|] o'].
  - exists []. cbn. now rewrite app_nil_r.
  - exists [MadeDirs path]. cbn. auto.
Qed.

Lemma emits_check :
  ok (Spawned version_cmd) -> emits ok (check_yt_dlp_installed P).
Proof.
  intros Hc. unfold check_yt_dlp_installed. emit; auto.
  - now apply emits_run_captured.
  - destruct e; emit; auto.
Qed.

Lemma emits_get_video_info url :
  ok (Spawned (info_cmd url)) -> emits ok (get_video_info P url).
Proof.
  intros Hc. unfold get_video_info. emit; auto.
  - now apply emits_run_captured.
  - destruct e; emit; auto.
Qed.

Lemma emits_list_formats url :
  ok (Spawned (formats_cmd url)) -> emits ok (list_formats P url).
Proof.
  intros Hc. unfold list_formats. emit; auto.
  - now apply emits_run_captured.
  - destruct e; emit; auto.
Qed.

Lemma emits_show_info v : emits ok (show_info P v).
Proof. unfold show_info. emit; auto. Qed.

Lemma emits_download_video url output_path format_spec audio_only :
  ok (MadeDirs output_path) ->
  ok (Spawned (download_cmd url output_path format_spec audio_only)) ->
  emits ok (download_video P url output_path format_spec audio_only).
Proof.
  intros Hd Hc. unfold download_video. emit; auto.
  - now apply emits_os_makedirs.
  - now apply emits_run_streamed.
  - destruct e; cbn [is_Exception] in *; emit; auto.
Qed.

Lemma emits_top_handler e h :
  top_handler P e = Some h -> emits ok h.
Proof. unfold top_handler. destruct e; cbn [is_Exception]; emit; auto. Qed.

End Outside.

Section WholeRun.

Variable P : Platform.
Variable args : Args.

Lemma allowed_version : command_allowed (arg_url args) version_cmd.
Proof. now left. Qed.

Lemma allowed_info : command_allowed (arg_url args) (info_cmd (arg_url args)).
Proof. right. unfold info_cmd. cbn. auto 6. Qed.

Lemma allowed_formats :
  command_allowed (arg_url args) (formats_cmd (arg_url args)).
Proof. right. unfold formats_cmd. cbn. auto 6. Qed.

Lemma allowed_download output_path format_spec audio_only :
  command_allowed (arg_url args)
    (download_cmd (arg_url args) output_path format_spec audio_only).
Proof.
  right. unfold download_cmd. destruct audio_only; cbn; auto 8.
Qed.

Lemma dispatch_emits : emits (event_allowed args) (dispatch P args).
Proof.
  assert (Hp : forall line, event_allowed args (Printed line)) by (intros; exact I).
  unfold dispatch.
  destruct (arg_info args) eqn:Hi; [|destruct (arg_list_formats args) eqn:Hl].
  - emit.
    + apply emits_get_video_info; [exact Hp | apply allowed_info].
    + now apply emits_show_info.
  - emit. apply emits_list_formats; [exact Hp | apply allowed_formats].
  - emit. apply emits_download_video.
    + exact Hp.
    + cbn. auto.
    + apply allowed_download.
Qed.

Lemma after_check_emits :
  emits (event_allowed args)
        ((if negb (validate_youtube_url P (arg_url args))
          then print (u "[!] Error: Invalid YouTube URL: " ++ arg_url args) ;;
               sys_exit 1
          else ret tt) ;;
         try_except (dispatch P args) (top_handler P)).
Proof.
  assert (Hp : forall line, event_allowed args (Printed line)) by (intros; exact I).
  emit; auto.
  - apply dispatch_emits.
  - eapply emits_top_handler; eauto.
Qed.

Lemma main_emits : emits (event_allowed args) (main P args).
Proof.
  assert (Hp : forall line, event_allowed args (Printed line)) by (intros; exact I).
  unfold main. apply emits_bind.
  - emit. apply emits_check; [exact Hp | apply allowed_version].
  - intros _. apply after_check_emits.
Qed.

Lemma check_spawns (w : World (OS P)) :
  exists evs,
    log (snd (check_yt_dlp_installed P w)) =
    log w ++ [Spawned version_cmd] ++ evs.
Proof.
  unfold check_yt_dlp_installed, try_except, bind, run_captured.
  destruct (spawn P (os w) version_cmd) as [[rc out err | e] o'].
  - destruct (rc =? 0)%Z; cbn; rewrite <- ?app_assoc; eexists; reflexivity.
  - destruct e; cbn; rewrite <- ?app_assoc;
      solve [ eexists; reflexivity | exists []; reflexivity ].
Qed.

End WholeRun.

(** X11.  Whatever the options and whatever happens, every command a run
    starts is the version probe or a call of yt-dlp with playlist
    expansion switched off and the URL of the command line as its last
    argument. *)
Theorem started_commands_shape (P : Platform) (args : Args) (w : World (OS P)) :
  exists evs,
    log (snd (main P args w)) = log w ++ evs /\
    forall c, In c (spawned evs) -> command_allowed (arg_url args) c.
Proof.
  destruct (main_emits P args w) as (evs & L & F). exists evs.
  split; [exact L|]. intros c Hc. unfold spawned in Hc.
  apply in_flat_map in Hc as (e & He & Hc).
  rewrite Forall_forall in F. specialize (F e He).
  destruct e; cbn in Hc; try contradiction.
  destruct Hc as [<- | []]. exact F.
Qed.

(** X12.  A run makes a directory only on the way of the download
    (neither [--info] nor [--list-formats]), and then only the output
    directory of the command line. *)
Theorem directories_only_for_download (P : Platform) (args : Args)
  (w : World (OS P)) :
  exists evs,
    log (snd (main P args w)) = log w ++ evs /\
    forall p, In p (made_dirs evs) ->
              arg_info args = false /\ arg_list_formats args = false /\
              p = arg_output args.
Proof.
  destruct (main_emits P args w) as (evs & L & F). exists evs.
  split; [exact L|]. intros p Hp. unfold made_dirs in Hp.
  apply in_flat_map in Hp as (e & He & Hp).
  rewrite Forall_forall in F. specialize (F e He).
  destruct e; cbn in Hp; try contradiction.
  destruct Hp as [<- | []]. exact F.
Qed.

(** X13.  The version probe comes first: once the options are parsed,
    a run starts it before it prints anything, makes a directory or
    starts another command. *)
Theorem probe_comes_first (P : Platform) (args : Args) (w : World (OS P)) :
  exists rest,
    log (snd (main P args w)) = log w ++ Spawned version_cmd :: rest.
Proof.
  unfold main.
  destruct (bind_starts (event_allowed args)
              (ok <- check_yt_dlp_installed P ;;
               (if negb ok then sys_exit 1 else ret tt))
              (fun _ =>
                 (if negb (validate_youtube_url P (arg_url args))
                  then print (u "[!] Error: Invalid YouTube URL: "
                              ++ arg_url args) ;; sys_exit 1
                  else ret tt) ;;
                 try_except (dispatch P args) (top_handler P))
              w [Spawned version_cmd]) as (rest & H).
  - apply bind_starts with (ok := event_allowed args).
    + apply check_spawns.
    + intros a. emit.
  - intros _. apply after_check_emits.
  - exists rest. exact H.
Qed.

(** ** More on the validator *)

(** X14.  An accepted string is not empty and starts with [h], [w] or
    [y]: nothing, not even white space, may come before the scheme, the
    "www." or the site. *)
Theorem validate_first_character (P : Platform) (s : pystr) :
  validate_youtube_url P s = true ->
  exists c rest,
    s = c :: rest /\ (c = chr "h" \/ c = chr "w" \/ c = chr "y").
Proof.
  intros H. apply validate_iff_shape in H.
  destruct H as [H | [H | H]];
    destruct H as (scheme & www & id & rest & Hs & Hw & _ & _ & ->);
    destruct Hs as [-> | [-> | ->]]; destruct Hw as [-> | ->];
    cbn; eexists; eexists; (split; [reflexivity | auto]).
Qed.

Lemma validate_first_character_witness :
  let Q := Demo.platform Demo.no_tool Demo.parse_title_only in
  exists c rest,
    Demo.video = c :: rest /\ (c = chr "h" \/ c = chr "w" \/ c = chr "y").
Proof.
  intros Q. apply (validate_first_character Q Demo.video).
  vm_compute. reflexivity.
Defined.

